(** * scriptLanguageCompare/1compare.py

    A shallow embedding of the script and the proofs of its specification.

    The script defines [add], [simple] and [performance] and, under the
    main-module guard, calls [simple()] and then [performance()].

    Conventions of the embedding:
    - a Python [int] is a [Z]; a Python [float] is an IEEE binary64 number,
      a [spec_float] with precision 53 and maximal exponent 1024; a Python
      [str] is a [string] holding its UTF-8 bytes;
    - the dynamically typed operators [+] and [-] are functions on [value]
      that raise [TypeError] where Python does;
    - the script's effects are threaded through a [world]: the system clock
      is an oracle of the environment, standard output and the clock
      readings are logged in a trace;
    - the names [time], [print] and [range] are bound once and never
      rebound by the script, so they are resolved statically;
    - [print], [simple], [performance] and [script] read the script under
      normal operation of standard output; [print_in], [simple_in],
      [performance_in] and [script_in] read it in an environment in which
      standard output can refuse a text or an interrupt can arrive. *)

From Stdlib Require Import ZArith NArith PArith Bool List String Ascii Lia.
From Stdlib Require Import DecimalString.
From Stdlib Require Import Floats.SpecFloat.
Import ListNotations.

Set Warnings "-register-all".

Open Scope string_scope.
Open Scope Z_scope.

(** ** Floats *)

Definition prec : Z := 53.
Definition emax : Z := 1024.

Definition float : Type := spec_float.

Definition float_add : float -> float -> float := SFadd prec emax.
Definition float_sub : float -> float -> float := SFsub prec emax.

(** Python's [x <= y] on floats. *)
Definition float_le (x y : float) : bool := SFleb x y.

Definition float_zero : float := S754_zero false.

(** The floats a binary64 word can hold. *)
Definition is_float (x : float) : bool := valid_binary prec emax x.

(** Neither an infinity nor a NaN. *)
Definition is_finite (x : float) : bool :=
  match x with
  | S754_zero _ | S754_finite _ _ _ => true
  | S754_infinity _ | S754_nan => false
  end.

(** A zero, or a positive float or infinity. *)
Definition nonneg_sign (x : float) : bool :=
  match x with
  | S754_zero _ => true
  | S754_finite s _ _ | S754_infinity s => negb s
  | S754_nan => false
  end.

(** The nearest float of an integer, ties to even; an infinity beyond the
    range. *)
Definition nearest_float (z : Z) : float := binary_normalize prec emax z 0 false.

(** ** Text *)

Definition nl : string := String (ascii_of_nat 10) EmptyString.

Definition is_nl (c : ascii) : bool := Ascii.eqb c (ascii_of_nat 10).

(** No line terminator occurs in the text. *)
Fixpoint newline_free (s : string) : bool :=
  match s with
  | EmptyString => true
  | String c s' => negb (is_nl c) && newline_free s'
  end.

(** The lines of a text, without their terminators. *)
Fixpoint lines (s : string) : list string :=
  match s with
  | EmptyString => []
  | String c s' =>
      if is_nl c then EmptyString :: lines s'
      else match lines s' with
           | [] => [String c EmptyString]
           | l :: ls => String c l :: ls
           end
  end.

(** [contains sub s]: [sub] occurs in [s]. *)
Definition contains (sub s : string) : bool :=
  match index 0 sub s with
  | Some _ => true
  | None => false
  end.

(** The characters of the [repr] of a float: digits, the point, the
    exponent mark and signs, and the letters of [inf] and [nan]. *)
Inductive fchar : Type :=
| F0 | F1 | F2 | F3 | F4 | F5 | F6 | F7 | F8 | F9
| FPoint | FMinus | FPlus | Fe | Fi | Fn | Ff | Fa.

Definition ascii_of_fchar (c : fchar) : ascii :=
  match c with
  | F0 => "0" | F1 => "1" | F2 => "2" | F3 => "3" | F4 => "4"
  | F5 => "5" | F6 => "6" | F7 => "7" | F8 => "8" | F9 => "9"
  | FPoint => "." | FMinus => "-" | FPlus => "+"
  | Fe => "e" | Fi => "i" | Fn => "n" | Ff => "f" | Fa => "a"
  end%char.

Fixpoint string_of_fchars (l : list fchar) : string :=
  match l with
  | [] => EmptyString
  | c :: l' => String (ascii_of_fchar c) (string_of_fchars l')
  end.

(** ** Values, exceptions and the world *)

(** The values the embedding holds: [None], [bool], [int], [float], [str]
    and [list].  The other types of the language (tuples, bytes, complex
    numbers, user classes) have no representation, and no statement below
    speaks of them. *)
Inductive value : Type :=
| VNone
| VBool (b : bool)
| VInt (z : Z)
| VFloat (f : float)
| VStr (s : string)
| VList (l : list value).

Inductive exn : Type :=
| TypeError
| OverflowError
| OSError
| UnicodeEncodeError
| KeyboardInterrupt.

Inductive outcome (A : Type) : Type :=
| Ok (a : A)
| Raise (e : exn).

Arguments Ok {A} a.
Arguments Raise {A} e.

(** [int], [float] and [bool] (a subclass of [int]). *)
Definition is_numeric (v : value) : bool :=
  match v with
  | VBool _ | VInt _ | VFloat _ => true
  | VNone | VStr _ | VList _ => false
  end.

Inductive event : Type :=
| EvClock (r : option float)   (* a reading of the system clock; [None]: the clock failed *)
| EvWrite (text : string).     (* a text written to standard output *)

(** The state the script runs in.  [clock k] is the answer of the system
    clock to the reading number [k]; [reads] counts the readings taken;
    [iterations] counts the loop bodies executed, it is an observer with no
    counterpart among the script's variables; [trace] lists the clock
    readings and the writes in the order they happened, each with the value
    of [iterations] at that moment. *)
Record world : Type := mkWorld {
  clock : nat -> option float;
  reads : nat;
  iterations : N;
  trace : list (N * event)
}.

(** A computation returns or raises, and leaves a world. *)
Definition py (A : Type) : Type := world -> outcome A * world.

Definition ret {A : Type} (a : A) : py A := fun w => (Ok a, w).

Definition bind {A B : Type} (m : py A) (k : A -> py B) : py B :=
  fun w =>
    match m w with
    | (Ok a, w') => k a w'
    | (Raise e, w') => (Raise e, w')
    end.

Notation "x <- m ;; k" := (bind m (fun x => k))
  (at level 61, m at next level, right associativity).

Definition lift {A : Type} (o : outcome A) : py A := fun w => (o, w).

Definition emit (e : event) (w : world) : world :=
  mkWorld (clock w) (reads w) (iterations w) (trace w ++ [(iterations w, e)]).

Definition add_iterations (k : N) (w : world) : world :=
  mkWorld (clock w) (reads w) (iterations w + k)%N (trace w).

(** Everything written to standard output so far. *)
Fixpoint written (t : list (N * event)) : string :=
  match t with
  | [] => EmptyString
  | (_, EvWrite s) :: t' => s ++ written t'
  | (_, EvClock _) :: t' => written t'
  end.

Definition stdout (w : world) : string := written (trace w).

(** ** The operators [+] and [-] *)

Definition as_int (v : value) : option Z :=
  match v with
  | VBool b => Some (Z.b2z b)
  | VInt z => Some z
  | _ => None
  end.

(** The conversion of an [int] operand that meets a [float] operand. *)
Definition float_of_int (z : Z) : outcome float :=
  match nearest_float z with
  | S754_infinity _ => Raise OverflowError
  | f => Ok f
  end.

Definition as_float (v : value) : option (outcome float) :=
  match v with
  | VFloat f => Some (Ok f)
  | VBool b => Some (float_of_int (Z.b2z b))
  | VInt z => Some (float_of_int z)
  | _ => None
  end.

Definition float_binop (op : float -> float -> float) (a b : value) : outcome value :=
  match as_float a, as_float b with
  | Some (Ok x), Some (Ok y) => Ok (VFloat (op x y))
  | Some (Raise e), Some _ => Raise e
  | Some (Ok _), Some (Raise e) => Raise e
  | _, _ => Raise TypeError
  end.

(** [a + b] *)
Definition binary_add (a b : value) : outcome value :=
  match a, b with
  | VStr s, VStr t => Ok (VStr (s ++ t))
  | VList l, VList m => Ok (VList (l ++ m))
  | _, _ =>
      match as_int a, as_int b with
      | Some x, Some y => Ok (VInt (x + y))
      | _, _ => float_binop float_add a b
      end
  end.

(** [a - b] *)
Definition binary_sub (a b : value) : outcome value :=
  match as_int a, as_int b with
  | Some x, Some y => Ok (VInt (x - y))
  | _, _ => float_binop float_sub a b
  end.

(** ** Statements and library calls *)

Definition pass : py unit := ret tt.

Definition loop_step (body : Z -> py unit)
    (st : Z * (outcome (option Z) * world)) : Z * (outcome (option Z) * world) :=
  let '(i, (r, w)) := st in
  match r with
  | Raise _ => st
  | Ok _ =>
      match body i (add_iterations 1 w) with
      | (Ok _, w') => (i + 1, (Ok (Some i), w'))
      | (Raise e, w') => (i + 1, (Raise e, w'))
      end
  end.

(** [for i in range(n): body]: the body runs for i = 0, ..., n-1, and not at
    all when [n <= 0]; an exception of the body ends the loop.  The result is
    the value the loop variable is left with. *)
Definition for_range (n : Z) (body : Z -> py unit) : py (option Z) :=
  fun w => snd (N.iter (Z.to_N n) (loop_step body) (0, (Ok None, w))).

(** [time.time()] *)
Definition time_time : py value :=
  fun w =>
    let r := clock w (reads w) in
    let w' := emit (EvClock r) (mkWorld (clock w) (S (reads w)) (iterations w) (trace w)) in
    match r with
    | Some t => (Ok (VFloat t), w')
    | None => (Raise OSError, w')
    end.

Definition exit_status {A : Type} (o : outcome A) : Z :=
  match o with
  | Ok _ => 0
  | Raise _ => 1
  end.

(** A process starts with no reading taken and nothing written. *)
Definition boot (c : nat -> option float) : world := mkWorld c 0 0 [].

(** ** Notions the properties of the operators speak of *)

(** The value of a finite float, counted in units of 2^-1074, the smallest
    positive float; 0 for the infinities and NaN. *)
Definition ticks (x : float) : Z :=
  match x with
  | S754_finite s m e => cond_Zopp s (Zpos m * 2 ^ (e + 1074))
  | _ => 0
  end.

Definition is_nan (x : float) : bool :=
  match x with
  | S754_nan => true
  | _ => false
  end.

(** Python's [x < y] on floats. *)
Definition float_lt (x y : float) : bool := SFltb x y.

(** A positive float or infinity. *)
Definition positive_sign (x : float) : bool :=
  match x with
  | S754_finite s _ _ | S754_infinity s => negb s
  | S754_zero _ | S754_nan => false
  end.

(** The families of operands among which [+] is defined. *)
Inductive family : Type := Number | Text | Sequence.

Definition family_of (v : value) : option family :=
  match v with
  | VNone => None
  | VBool _ | VInt _ | VFloat _ => Some Number
  | VStr _ => Some Text
  | VList _ => Some Sequence
  end.

Definition family_eqb (f g : family) : bool :=
  match f, g with
  | Number, Number | Text, Text | Sequence, Sequence => true
  | _, _ => false
  end.

(** Both operands belong to one family. *)
Definition same_family (a b : value) : bool :=
  match family_of a, family_of b with
  | Some f, Some g => family_eqb f g
  | _, _ => false
  end.

(** The float an operand of [+] stands for where the sum is a float: the
    operand itself, or the nearest float of an [int]. *)
Definition float_value (v : value) : float :=
  match v with
  | VFloat f => f
  | VInt z => nearest_float z
  | VBool b => nearest_float (Z.b2z b)
  | _ => S754_nan
  end.

(** Operands on which [+] is exact: all [int] (or [bool]), all [str] or all
    [list]. *)
Definition exact_operands (a b c : value) : bool :=
  match a, b, c with
  | (VBool _ | VInt _), (VBool _ | VInt _), (VBool _ | VInt _) => true
  | VStr _, VStr _, VStr _ => true
  | VList _, VList _, VList _ => true
  | _, _, _ => false
  end.

(** ** A concrete interpreter and clock

    With these the script runs on an input. *)

Fixpoint fchars_of_uint (u : Decimal.uint) : list fchar :=
  match u with
  | Decimal.Nil => []
  | Decimal.D0 u' => F0 :: fchars_of_uint u'
  | Decimal.D1 u' => F1 :: fchars_of_uint u'
  | Decimal.D2 u' => F2 :: fchars_of_uint u'
  | Decimal.D3 u' => F3 :: fchars_of_uint u'
  | Decimal.D4 u' => F4 :: fchars_of_uint u'
  | Decimal.D5 u' => F5 :: fchars_of_uint u'
  | Decimal.D6 u' => F6 :: fchars_of_uint u'
  | Decimal.D7 u' => F7 :: fchars_of_uint u'
  | Decimal.D8 u' => F8 :: fchars_of_uint u'
  | Decimal.D9 u' => F9 :: fchars_of_uint u'
  end.

(** The decimal digits of [r / 2^k] after the point, for [0 <= r < 2^k]. *)
Fixpoint fraction_digits (fuel : nat) (r k : Z) : list fchar :=
  match fuel with
  | O => []
  | S fuel' =>
      if Z.eqb r 0 then []
      else fchars_of_uint (N.to_uint (Z.to_N (10 * r / 2 ^ k)))
             ++ fraction_digits fuel' ((10 * r) mod 2 ^ k) k
  end.

Definition sign_fchars (s : bool) : list fchar := if s then [FMinus] else [].

(** All the decimal digits of a float, in positional notation.  This is not
    the [repr] of CPython, which prints the shortest decimal that reads back
    as the same float and uses an exponent for large and small magnitudes;
    the two texts are the same on the values the examples print: 0.5, -0.5
    and 0.0.  No theorem depends on it: each is stated for every
    [float_repr]. *)
Definition exact_repr (x : float) : list fchar :=
  match x with
  | S754_nan => [Fn; Fa; Fn]
  | S754_infinity s => sign_fchars s ++ [Fi; Fn; Ff]
  | S754_zero s => sign_fchars s ++ [F0; FPoint; F0]
  | S754_finite s m e =>
      sign_fchars s ++
      (if Z.leb 0 e
       then fchars_of_uint (N.to_uint (Z.to_N (Zpos m * 2 ^ e))) ++ [FPoint; F0]
       else
         let k := - e in
         fchars_of_uint (N.to_uint (Z.to_N (Zpos m / 2 ^ k))) ++ FPoint ::
           match fraction_digits (Z.to_nat k) (Zpos m mod 2 ^ k) k with
           | [] => [F0]
           | ds => ds
           end)
  end.

(** [repr] of a string that needs no escape. *)
Definition quote_repr (s : string) : string := "'" ++ s ++ "'".

(** 1.0 *)
Definition float_one : float := S754_finite false 4503599627370496 (-52).

(** 1700000000.25 and 1700000000.75 *)
Definition sample_start : float := S754_finite false 7130316801048576 (-22).
Definition sample_end : float := S754_finite false 7130316803145728 (-22).

(** A clock that answers twice. *)
Definition sample_clock (k : nat) : option float :=
  match k with
  | O => Some sample_start
  | S O => Some sample_end
  | _ => None
  end.

(** A clock that was set back between its two readings. *)
Definition clock_set_back (k : nat) : option float :=
  match k with
  | O => Some sample_end
  | S O => Some sample_start
  | _ => None
  end.

(** A clock that fails at its second reading. *)
Definition failing_clock (k : nat) : option float :=
  match k with
  | O => Some sample_start
  | _ => None
  end.

(** A clock that has not advanced between its two readings. *)
Definition stalled_clock (k : nat) : option float :=
  match k with
  | O => Some sample_start
  | S O => Some sample_start
  | _ => None
  end.

(** ** The environment of a run

    Under normal operation standard output takes every text and nothing
    interrupts the run: that is the reading of [print] and of the script
    below.  A run can also meet an environment in which standard output
    cannot encode or take a text, cannot be flushed when the interpreter
    exits, or in which an interrupt arrives; the definitions with the suffix
    [_in] read the script in such an environment. *)

Inductive write_fault : Type :=
| CannotEncode   (* the encoding of standard output has no code for a character *)
| CannotWrite.   (* the operating system refuses the write *)

Definition exn_of_write_fault (f : write_fault) : exn :=
  match f with
  | CannotEncode => UnicodeEncodeError
  | CannotWrite => OSError
  end.

(** [env_clock]: the answers of the clock; [env_stdout k]: what happens to
    the [print] number [k], [None] when the text is taken; [env_flush]:
    standard output can be flushed at exit; [env_interrupt]: the checkpoint
    at which an interrupt (SIGINT) arrives, if one does. *)
Record environment : Type := mkEnvironment {
  env_clock : nat -> option float;
  env_stdout : nat -> option write_fault;
  env_flush : bool;
  env_interrupt : option N
}.

(** A running process: its world, the number of calls of [print] and the
    number of checkpoints passed.  The interpreter looks for a pending
    interrupt at a checkpoint: before each statement and at each turn of a
    loop. *)
Record process : Type := mkProcess {
  proc_world : world;
  prints : nat;
  checkpoints : N
}.

Definition hosted (A : Type) : Type := process -> outcome A * process.

Definition ret_in {A : Type} (a : A) : hosted A := fun p => (Ok a, p).

Definition bind_in {A B : Type} (m : hosted A) (k : A -> hosted B) : hosted B :=
  fun p =>
    match m p with
    | (Ok a, p') => k a p'
    | (Raise e, p') => (Raise e, p')
    end.

Notation "x <~ m ;; k" := (bind_in m (fun x => k))
  (at level 61, m at next level, right associativity).

(** A computation that meets no fault of the environment. *)
Definition in_world {A : Type} (m : py A) : hosted A :=
  fun p =>
    let '(o, w) := m (proc_world p) in
    (o, mkProcess w (prints p) (checkpoints p)).

Definition interrupted_at (E : environment) (c : N) : bool :=
  match env_interrupt E with
  | Some k => (k =? c)%N
  | None => false
  end.

(** The interrupt arrives at a checkpoint of [lo, hi). *)
Definition interrupted_in (E : environment) (lo hi : N) : bool :=
  match env_interrupt E with
  | Some k => (lo <=? k)%N && (k <? hi)%N
  | None => false
  end.

(** The checkpoint of the interrupt, where there is one. *)
Definition interrupt_point (E : environment) : N :=
  match env_interrupt E with
  | Some k => k
  | None => 0
  end.

Definition checkpoint (E : environment) : hosted unit :=
  fun p =>
    let p' := mkProcess (proc_world p) (prints p) (checkpoints p + 1) in
    if interrupted_at E (checkpoints p)
    then (Raise KeyboardInterrupt, p')
    else (Ok tt, p').

Definition loop_step_in (E : environment) (body : Z -> hosted unit)
    (st : Z * (outcome (option Z) * process)) : Z * (outcome (option Z) * process) :=
  let '(i, (r, p)) := st in
  match r with
  | Raise _ => st
  | Ok _ =>
      match (_ <~ checkpoint E ;;
             _ <~ in_world (fun w => (Ok tt, add_iterations 1 w)) ;;
             body i) p with
      | (Ok _, p') => (i + 1, (Ok (Some i), p'))
      | (Raise e, p') => (i + 1, (Raise e, p'))
      end
  end.

(** [for i in range(n): body], with a checkpoint at each turn. *)
Definition for_range_in (E : environment) (n : Z) (body : Z -> hosted unit) :
    hosted (option Z) :=
  fun p => snd (N.iter (Z.to_N n) (loop_step_in E body) (0, (Ok None, p))).

(** An unhandled [KeyboardInterrupt] ends the process by the signal, which
    a shell reports as 128 + 2; a failed flush at exit gives 120; another
    unhandled exception gives 1. *)
Definition exit_status_in {A : Type} (E : environment) (o : outcome A) : Z :=
  match o with
  | Raise KeyboardInterrupt => 130
  | Raise _ => if env_flush E then 1 else 120
  | Ok _ => if env_flush E then 0 else 120
  end.

Definition start (E : environment) : process :=
  mkProcess (boot (env_clock E)) 0 0.

(** The exceptions that come from the environment, not from an operation of
    the script on its values. *)
Definition environmental (e : exn) : bool :=
  match e with
  | OSError | UnicodeEncodeError | KeyboardInterrupt => true
  | TypeError | OverflowError => false
  end.

(** The number of checkpoints of a whole run. *)
Definition run_checkpoints : N := 10000007.

(** Normal operation: the clock answers both readings, standard output
    takes both texts and can be flushed, and no interrupt arrives during
    the run. *)
Definition normal_operation (E : environment) : bool :=
  match env_clock E 0%nat, env_clock E 1%nat, env_stdout E 0%nat, env_stdout E 1%nat with
  | Some _, Some _, None, None =>
      env_flush E && negb (interrupted_in E 0 run_checkpoints)
  | _, _, _, _ => false
  end.

(** An environment without fault around the sample clock. *)
Definition sample_environment : environment :=
  mkEnvironment sample_clock (fun _ => None) true None.

(** Standard output cannot encode the label of the second line. *)
Definition ascii_stdout : environment :=
  mkEnvironment sample_clock
    (fun k => match k with S O => Some CannotEncode | _ => None end) true None.

(** Standard output is a closed pipe: the texts are buffered and the flush
    at exit fails. *)
Definition closed_pipe : environment :=
  mkEnvironment sample_clock (fun _ => None) false None.

(** An interrupt arrives during the turn 5000 of the loop. *)
Definition interrupted_loop : environment :=
  mkEnvironment sample_clock (fun _ => None) true (Some 5005%N).

Section Script.

(** [repr] of a float and of a string belong to the interpreter. *)
Variable float_repr : float -> list fchar.
Variable str_repr : string -> string.

Fixpoint py_repr (v : value) : string :=
  match v with
  | VNone => "None"
  | VBool true => "True"
  | VBool false => "False"
  | VInt z => NilZero.string_of_int (Z.to_int z)
  | VFloat f => string_of_fchars (float_repr f)
  | VStr s => str_repr s
  | VList l => "[" ++ concat ", " (map py_repr l) ++ "]"
  end.

Definition py_str (v : value) : string :=
  match v with
  | VStr s => s
  | _ => py_repr v
  end.

(** [print(a, b, ...)] under normal operation, standard output taking the
    text: the [str] of each argument, separated by a space, then a line
    terminator.  [print_in] below is [print] where standard output can
    refuse. *)
Definition print (args : list value) : py value :=
  fun w => (Ok VNone, emit (EvWrite (concat " " (map py_str args) ++ nl)) w).

(** ** The script *)

Definition add (a b : value) : py value :=
  lift (binary_add a b).

Definition simple : py value :=
  result <- add (VInt 3) (VInt 4) ;;
  _ <- print [VStr "The sum is:"; result] ;;
  ret VNone.

Definition performance : py value :=
  start_time <- time_time ;;
  _ <- for_range 10000000 (fun i => pass) ;;
  end_time <- time_time ;;
  elapsed <- lift (binary_sub end_time start_time) ;;
  _ <- print [VStr "Python执行时间："; elapsed; VStr "秒"] ;;
  ret VNone.

(** The module body; [name] is the value of [__name__]. *)
Definition script (name : string) : py unit :=
  if String.eqb name "__main__"
  then _ <- simple ;; _ <- performance ;; ret tt
  else ret tt.

(** Running the file as a program: the exit status and the output. *)
Definition run (c : nat -> option float) : Z * string :=
  let '(o, w) := script "__main__" (boot c) in (exit_status o, stdout w).

(** ** The texts and events the specification speaks of *)

Definition sum_text : string := "The sum is: 7".

Definition elapsed_text (d : float) : string :=
  "Python执行时间： " ++ string_of_fchars (float_repr d) ++ " 秒".

(** The output of a run in which the clock gave [t0] and then [t1]. *)
Definition report (t0 t1 : float) : string :=
  (sum_text ++ nl) ++ (elapsed_text (float_sub t1 t0) ++ nl).

(** [performance] with [pass] in the place of its loop. *)
Definition performance_without_loop : py value :=
  start_time <- time_time ;;
  _ <- pass ;;
  end_time <- time_time ;;
  elapsed <- lift (binary_sub end_time start_time) ;;
  _ <- print [VStr "Python执行时间："; elapsed; VStr "秒"] ;;
  ret VNone.

(** What [performance] does to the outside, from the two answers of the
    clock alone. *)
Definition performance_events (r0 r1 : option float) : list event :=
  match r0, r1 with
  | None, _ => [EvClock None]
  | Some t0, None => [EvClock (Some t0); EvClock None]
  | Some t0, Some t1 =>
      [EvClock (Some t0); EvClock (Some t1);
       EvWrite (elapsed_text (float_sub t1 t0) ++ nl)]
  end.

(** Both readings of a run are answered. *)
Definition clock_answers (c : nat -> option float) : bool :=
  match c 0%nat, c 1%nat with
  | Some _, Some _ => true
  | _, _ => false
  end.

(** In [a + b] an [int] meets a [float] it cannot be converted to. *)
Definition conversion_overflows (a b : value) : bool :=
  match a, b with
  | VFloat _, (VInt _ | VBool _) =>
      match as_float b with Some (Raise _) => true | _ => false end
  | (VInt _ | VBool _), VFloat _ =>
      match as_float a with Some (Raise _) => true | _ => false end
  | _, _ => false
  end.

(** ** The script in an environment *)

Section Hosted.

Variable E : environment.

(** [print], when standard output may refuse the text. *)
Definition print_in (args : list value) : hosted value :=
  fun p =>
    let p' := mkProcess (proc_world p) (S (prints p)) (checkpoints p) in
    match env_stdout E (prints p) with
    | None => in_world (print args) p'
    | Some f => (Raise (exn_of_write_fault f), p')
    end.

Definition simple_in : hosted value :=
  _ <~ checkpoint E ;;
  result <~ in_world (add (VInt 3) (VInt 4)) ;;
  _ <~ checkpoint E ;;
  _ <~ print_in [VStr "The sum is:"; result] ;;
  ret_in VNone.

Definition performance_in : hosted value :=
  _ <~ checkpoint E ;;
  start_time <~ in_world time_time ;;
  _ <~ for_range_in E 10000000 (fun i => ret_in tt) ;;
  _ <~ checkpoint E ;;
  end_time <~ in_world time_time ;;
  _ <~ checkpoint E ;;
  elapsed <~ in_world (lift (binary_sub end_time start_time)) ;;
  _ <~ print_in [VStr "Python执行时间："; elapsed; VStr "秒"] ;;
  ret_in VNone.

Definition script_in (name : string) : hosted unit :=
  if String.eqb name "__main__"
  then
    _ <~ checkpoint E ;;
    _ <~ simple_in ;;
    _ <~ checkpoint E ;;
    _ <~ performance_in ;;
    ret_in tt
  else ret_in tt.

Definition run_in : Z * string :=
  let '(o, p) := script_in "__main__" (start E) in
  (exit_status_in E o, stdout (proc_world p)).

(** The first fault that a run meets, in the order of the script. *)
Definition first_fault : option exn :=
  if interrupted_in E 0 3 then Some KeyboardInterrupt else
  match env_stdout E 0%nat with
  | Some f => Some (exn_of_write_fault f)
  | None =>
  if interrupted_in E 3 5 then Some KeyboardInterrupt else
  match env_clock E 0%nat with
  | None => Some OSError
  | Some _ =>
  if interrupted_in E 5 10000006 then Some KeyboardInterrupt else
  match env_clock E 1%nat with
  | None => Some OSError
  | Some _ =>
  if interrupted_in E 10000006 10000007 then Some KeyboardInterrupt else
  match env_stdout E 1%nat with
  | Some f => Some (exn_of_write_fault f)
  | None => None
  end end end end.

End Hosted.

(** * Proofs *)

(** ** Floats: the sign of a rounded difference *)

Lemma digits2_pos_size (m : positive) : digits2_pos m = Pos.size m.
Proof. induction m as [m IH | m IH | ]; simpl; congruence. Qed.

Lemma iter_pos_invariant {A : Type} (f : A -> A) (P : A -> Prop) :
  (forall x, P x -> P (f x)) -> forall n x, P x -> P (iter_pos f n x).
Proof.
  intros Hf n. induction n as [n IH | n IH | ]; intros x Hx; simpl; auto.
Qed.

Lemma shr_1_nonneg (mrs : shr_record) : 0 <= shr_m mrs -> 0 <= shr_m (shr_1 mrs).
Proof.
  destruct mrs as [m r s]. simpl.
  destruct m as [ | [p | p | ] | p]; simpl; lia.
Qed.

Lemma shr_nonneg (mrs : shr_record) (e n : Z) :
  0 <= shr_m mrs -> 0 <= shr_m (fst (shr mrs e n)).
Proof.
  intros H. destruct n as [ | p | p]; simpl; trivial.
  apply iter_pos_invariant; trivial. exact shr_1_nonneg.
Qed.

Lemma shr_record_of_loc_m (m : Z) (l : location) : shr_m (shr_record_of_loc m l) = m.
Proof. destruct l as [ | [ | | ]]; reflexivity. Qed.

Lemma shr_fexp_nonneg (m e : Z) (l : location) :
  0 <= m -> 0 <= shr_m (fst (shr_fexp prec emax m e l)).
Proof.
  intros H. unfold shr_fexp. apply shr_nonneg. now rewrite shr_record_of_loc_m.
Qed.

Lemma round_nearest_even_nonneg (m : Z) (l : location) :
  0 <= m -> 0 <= round_nearest_even m l.
Proof.
  intros H. destruct l as [ | [ | | ]]; simpl; try lia.
  destruct (Z.even m); lia.
Qed.

Lemma binary_round_aux_sign (sx : bool) (mx ex : Z) (lx : location) :
  0 <= mx ->
  let r := binary_round_aux prec emax sx mx ex lx in
  r = S754_zero sx \/ r = S754_infinity sx \/ exists m e, r = S754_finite sx m e.
Proof.
  intros H. unfold binary_round_aux.
  pose proof (shr_fexp_nonneg mx ex lx H) as H1.
  destruct (shr_fexp prec emax mx ex lx) as [mrs' e'] eqn:E1. simpl in H1.
  pose proof (shr_fexp_nonneg _ e' loc_Exact
                (round_nearest_even_nonneg _ (loc_of_shr_record mrs') H1)) as H2.
  destruct (shr_fexp prec emax _ e' loc_Exact) as [mrs'' e''] eqn:E2. simpl in H2.
  cbv zeta.
  destruct (shr_m mrs'') as [ | p | p].
  - now left.
  - destruct (e'' <=? emax - prec); right; [right; eauto | now left].
  - lia.
Qed.

Lemma binary_round_sign (sx : bool) (mx : positive) (ex : Z) :
  let r := binary_round prec emax sx mx ex in
  r = S754_zero sx \/ r = S754_infinity sx \/ exists m e, r = S754_finite sx m e.
Proof.
  unfold binary_round.
  destruct (shl_align mx ex _) as [mz ez].
  apply binary_round_aux_sign. lia.
Qed.

Lemma binary_normalize_nonneg (m e : Z) :
  0 <= m -> nonneg_sign (binary_normalize prec emax m e false) = true.
Proof.
  intros H. destruct m as [ | p | p]; simpl; [reflexivity | | lia].
  destruct (binary_round_sign false p e) as [E | [E | [m' [e' E]]]]; cbv zeta in E; now rewrite E.
Qed.

Lemma nonneg_sign_le (x : float) : nonneg_sign x = true -> float_le float_zero x = true.
Proof.
  destruct x as [s | s | | s m e]; simpl; try discriminate; trivial; now destruct s.
Qed.

Lemma iter_xO (d m : positive) : Zpos (Pos.iter xO m d) = Zpos m * 2 ^ Zpos d.
Proof.
  induction d as [ | d IH] using Pos.peano_ind.
  - simpl. lia.
  - rewrite Pos.iter_succ, Pos2Z.inj_xO, IH, Pos2Z.inj_succ, Z.pow_succ_r by lia. lia.
Qed.

Lemma shl_align_fst (m : positive) (e e' : Z) :
  e' <= e -> Zpos (fst (shl_align m e e')) = Zpos m * 2 ^ (e - e').
Proof.
  intros H. unfold shl_align.
  destruct (e' - e) as [ | d | d] eqn:E; cbn [fst].
  - replace (e - e') with 0 by lia. lia.
  - lia.
  - rewrite iter_xO. replace (e - e') with (Zpos d) by lia. reflexivity.
Qed.

Lemma digits2_pos_bounds (m : positive) :
  2 ^ (Zpos (digits2_pos m) - 1) <= Zpos m < 2 ^ Zpos (digits2_pos m).
Proof.
  rewrite digits2_pos_size. split.
  - pose proof (Pos.size_le m) as H.
    apply Pos2Z.pos_le_pos in H. rewrite Pos2Z.inj_pow in H.
    replace (Zpos (Pos.size m)) with (Z.succ (Zpos (Pos.size m) - 1)) in H by lia.
    rewrite Z.pow_succ_r in H by lia. lia.
  - pose proof (Pos.size_gt m) as H.
    apply Pos2Z.pos_lt_pos in H. now rewrite Pos2Z.inj_pow in H.
Qed.

(** Of two floats in canonical form, the one with the smaller exponent has
    the smaller magnitude. *)
Lemma canonical_exponent_lt (m1 m2 : positive) (e1 e2 : Z) :
  canonical_mantissa prec emax m1 e1 = true ->
  canonical_mantissa prec emax m2 e2 = true ->
  e1 < e2 ->
  Zpos m1 < Zpos m2 * 2 ^ (e2 - e1).
Proof.
  unfold canonical_mantissa, fexp, emin, prec, emax.
  intros H1 H2 Hlt.
  apply Z.eqb_eq in H1. apply Z.eqb_eq in H2.
  assert (D1 : Zpos (digits2_pos m1) <= 53) by lia.
  assert (D2 : Zpos (digits2_pos m2) = 53) by lia.
  pose proof (digits2_pos_bounds m1) as [_ B1].
  pose proof (digits2_pos_bounds m2) as [B2 _].
  rewrite D2 in B2.
  assert (P1 : 2 ^ Zpos (digits2_pos m1) <= 2 ^ 53) by (apply Z.pow_le_mono_r; lia).
  assert (P2 : 2 ^ 1 <= 2 ^ (e2 - e1)) by (apply Z.pow_le_mono_r; lia).
  change (2 ^ 1) with 2 in P2.
  change (2 ^ 53) with (2 ^ (53 - 1) * 2) in P1.
  nia.
Qed.

Lemma compare_cont_Eq_le (m1 m2 : positive) :
  Pos.compare_cont Eq m1 m2 <> Gt -> Zpos m1 <= Zpos m2.
Proof. intros H. change (Pos.compare m1 m2 <> Gt) in H. apply Pos2Z.pos_le_pos. exact H. Qed.

Lemma compare_cont_Eq_ge (m1 m2 : positive) :
  CompOpp (Pos.compare_cont Eq m1 m2) <> Gt -> Zpos m2 <= Zpos m1.
Proof.
  change (Pos.compare_cont Eq m1 m2) with (Pos.compare m1 m2).
  rewrite <- Pos.compare_antisym. intros H. apply Pos2Z.pos_le_pos. exact H.
Qed.

(** Where Python's [x <= y] holds of two finite floats, the difference of
    their aligned mantissas, as [y - x] computes it, is not negative. *)
Lemma aligned_difference_nonneg (sx sy : bool) (mx my : positive) (ex ey : Z) :
  bounded prec emax mx ex = true ->
  bounded prec emax my ey = true ->
  float_le (S754_finite sx mx ex) (S754_finite sy my ey) = true ->
  0 <= cond_Zopp sy (Zpos (fst (shl_align my ey (Z.min ey ex))))
       - cond_Zopp sx (Zpos (fst (shl_align mx ex (Z.min ey ex)))).
Proof.
  unfold bounded. intros Bx By Hle.
  apply andb_prop in Bx as [Cx _]. apply andb_prop in By as [Cy _].
  rewrite !shl_align_fst by lia.
  unfold float_le, SFleb, SFcompare in Hle.
  destruct sx, sy; unfold cond_Zopp; try discriminate.
  - (* both negative *)
    destruct (Z.compare_spec ex ey) as [E | L | G].
    + subst ey. rewrite Z.min_id, Z.sub_diag, Z.pow_0_r.
      assert (Zpos my <= Zpos mx); [ | lia].
      apply compare_cont_Eq_ge. now destruct (CompOpp _).
    + discriminate.
    + rewrite Z.min_l by lia. rewrite Z.sub_diag.
      pose proof (canonical_exponent_lt my mx ey ex Cy Cx G). rewrite Z.pow_0_r. lia.
  - (* x negative, y positive *)
    assert (0 < 2 ^ (ey - Z.min ey ex)) by (apply Z.pow_pos_nonneg; lia).
    assert (0 < 2 ^ (ex - Z.min ey ex)) by (apply Z.pow_pos_nonneg; lia).
    nia.
  - (* both positive *)
    destruct (Z.compare_spec ex ey) as [E | L | G].
    + subst ey. rewrite Z.min_id, Z.sub_diag, Z.pow_0_r.
      assert (Zpos mx <= Zpos my); [ | lia].
      apply compare_cont_Eq_le. now destruct (Pos.compare_cont _ _ _).
    + rewrite Z.min_r by lia. rewrite Z.sub_diag.
      pose proof (canonical_exponent_lt mx my ex ey Cx Cy L). rewrite Z.pow_0_r. lia.
    + discriminate.
Qed.

(** [y - x] of two finite floats with [x <= y] is a zero or positive. *)
Lemma float_sub_nonneg (x y : float) :
  is_float x = true -> is_float y = true ->
  is_finite x = true -> is_finite y = true ->
  float_le x y = true ->
  float_le float_zero (float_sub y x) = true.
Proof.
  intros Vx Vy Fx Fy Hle. apply nonneg_sign_le.
  destruct x as [sx | sx | | sx mx ex]; try discriminate;
    destruct y as [sy | sy | | sy my ey]; try discriminate.
  - unfold float_sub; simpl. now destruct sy, sx.
  - unfold float_sub; simpl. unfold float_le in Hle; simpl in Hle. now destruct sy.
  - unfold float_sub; simpl. unfold float_le in Hle; simpl in Hle. now destruct sx.
  - unfold float_sub, SFsub. apply binary_normalize_nonneg.
    now apply aligned_difference_nonneg.
Qed.

(** ** Text *)

Lemma append_assoc (s t u : string) : ((s ++ t) ++ u = s ++ (t ++ u))%string.
Proof. induction s as [ | c s IH]; simpl; [reflexivity | now rewrite IH]. Qed.

Lemma append_empty_r (s : string) : (s ++ "")%string = s.
Proof. induction s as [ | c s IH]; simpl; [reflexivity | now rewrite IH]. Qed.

Lemma newline_free_app (s t : string) :
  newline_free (s ++ t) = newline_free s && newline_free t.
Proof.
  induction s as [ | c s IH]; simpl; [reflexivity | ].
  now rewrite IH, andb_assoc.
Qed.

Lemma fchars_newline_free (l : list fchar) : newline_free (string_of_fchars l) = true.
Proof.
  induction l as [ | c l IH]; simpl; [reflexivity | ].
  rewrite IH. now destruct c.
Qed.

(** A text without line terminator, then a terminator: one line. *)
Lemma lines_cons (s r : string) :
  newline_free s = true -> lines (s ++ nl ++ r) = s :: lines r.
Proof.
  induction s as [ | c s IH]; intros H; [reflexivity | ].
  cbn [newline_free] in H. apply andb_prop in H as [Hc Hs].
  apply negb_true_iff in Hc.
  change (String c s ++ nl ++ r)%string with (String c (s ++ nl ++ r)).
  cbn [lines]. now rewrite Hc, (IH Hs).
Qed.

Lemma written_app (t t' : list (N * event)) :
  written (t ++ t') = (written t ++ written t')%string.
Proof.
  induction t as [ | [n [r | s]] t IH]; simpl; trivial.
  now rewrite IH, append_assoc.
Qed.

Lemma elapsed_text_newline_free (d : float) : newline_free (elapsed_text d) = true.
Proof.
  unfold elapsed_text.
  now rewrite !newline_free_app, fchars_newline_free.
Qed.

(** The two lines of a report. *)
Lemma lines_report (t0 t1 : float) :
  lines (report t0 t1) = [sum_text; elapsed_text (float_sub t1 t0)].
Proof.
  unfold report.
  rewrite append_assoc, (lines_cons sum_text) by reflexivity.
  rewrite <- (append_empty_r nl) at 1.
  rewrite (lines_cons (elapsed_text _)) by apply elapsed_text_newline_free.
  reflexivity.
Qed.

(** ** The loop *)

Lemma add_iterations_0 (w : world) : add_iterations 0 w = w.
Proof. destruct w; unfold add_iterations; simpl. now rewrite N.add_0_r. Qed.

Lemma add_iterations_succ (k : N) (w : world) :
  add_iterations 1 (add_iterations k w) = add_iterations (N.succ k) w.
Proof. unfold add_iterations; simpl. f_equal. lia. Qed.

(** After [k] turns of a loop whose body is [pass]: the index is [k], the
    loop variable holds [k - 1], and [k] turns are counted; nothing else
    has changed. *)
Lemma iter_pass (k : N) (w : world) :
  N.iter k (loop_step (fun _ => pass)) (0, (Ok None, w))
  = (Z.of_N k,
     (Ok (if (k =? 0)%N then None else Some (Z.of_N k - 1)), add_iterations k w)).
Proof.
  induction k as [ | k IH] using N.peano_ind.
  - simpl. now rewrite add_iterations_0.
  - rewrite N.iter_succ, IH. unfold loop_step, pass, ret.
    rewrite add_iterations_succ.
    destruct (N.eqb_spec (N.succ k) 0) as [E | _]; [lia | ].
    repeat f_equal; lia.
Qed.

Lemma for_range_pass (n : Z) (w : world) :
  0 < n ->
  for_range n (fun _ => pass) w = (Ok (Some (n - 1)), add_iterations (Z.to_N n) w).
Proof.
  intros H. unfold for_range. rewrite iter_pass. simpl.
  destruct (N.eqb_spec (Z.to_N n) 0) as [E | _]; [lia | ].
  repeat f_equal; lia.
Qed.

(** ** The functions of the script, on every world *)

Lemma time_time_run (w : world) :
  time_time w
  = (match clock w (reads w) with
     | Some t => Ok (VFloat t)
     | None => Raise OSError
     end,
     mkWorld (clock w) (S (reads w)) (iterations w)
       (trace w ++ [(iterations w, EvClock (clock w (reads w)))])).
Proof. unfold time_time, emit; simpl. now destruct (clock w (reads w)). Qed.

Lemma print_elapsed (d : float) (w : world) :
  print [VStr "Python执行时间："; VFloat d; VStr "秒"] w
  = (Ok VNone, emit (EvWrite (elapsed_text d ++ nl)) w).
Proof. reflexivity. Qed.

Lemma simple_run (w : world) :
  simple w
  = (Ok VNone,
     mkWorld (clock w) (reads w) (iterations w)
       (trace w ++ [(iterations w, EvWrite (sum_text ++ nl))])).
Proof. reflexivity. Qed.

Lemma performance_run (w : world) :
  performance w
  = match clock w (reads w), clock w (S (reads w)) with
    | Some t0, Some t1 =>
        (Ok VNone,
         mkWorld (clock w) (S (S (reads w))) (iterations w + 10000000)
           (trace w ++
            [(iterations w, EvClock (Some t0));
             ((iterations w + 10000000)%N, EvClock (Some t1));
             ((iterations w + 10000000)%N,
              EvWrite (elapsed_text (float_sub t1 t0) ++ nl))]))
    | Some t0, None =>
        (Raise OSError,
         mkWorld (clock w) (S (S (reads w))) (iterations w + 10000000)
           (trace w ++
            [(iterations w, EvClock (Some t0));
             ((iterations w + 10000000)%N, EvClock None)]))
    | None, _ =>
        (Raise OSError,
         mkWorld (clock w) (S (reads w)) (iterations w)
           (trace w ++ [(iterations w, EvClock None)]))
    end.
Proof.
  unfold performance, bind. rewrite time_time_run.
  destruct (clock w (reads w)) as [t0 | ]; [ | reflexivity].
  rewrite for_range_pass by lia. rewrite time_time_run.
  unfold add_iterations; cbn [clock reads iterations trace].
  destruct (clock w (S (reads w))) as [t1 | ].
  - unfold lift. cbn [binary_sub as_int float_binop as_float].
    rewrite print_elapsed. unfold emit, ret; cbn [clock reads iterations trace].
    now rewrite <- !app_assoc.
  - now rewrite <- !app_assoc.
Qed.

Lemma performance_without_loop_run (w : world) :
  performance_without_loop w
  = match clock w (reads w), clock w (S (reads w)) with
    | Some t0, Some t1 =>
        (Ok VNone,
         mkWorld (clock w) (S (S (reads w))) (iterations w)
           (trace w ++
            [(iterations w, EvClock (Some t0));
             (iterations w, EvClock (Some t1));
             (iterations w, EvWrite (elapsed_text (float_sub t1 t0) ++ nl))]))
    | Some t0, None =>
        (Raise OSError,
         mkWorld (clock w) (S (S (reads w))) (iterations w)
           (trace w ++
            [(iterations w, EvClock (Some t0)); (iterations w, EvClock None)]))
    | None, _ =>
        (Raise OSError,
         mkWorld (clock w) (S (reads w)) (iterations w)
           (trace w ++ [(iterations w, EvClock None)]))
    end.
Proof.
  unfold performance_without_loop, bind. rewrite time_time_run.
  destruct (clock w (reads w)) as [t0 | ]; [ | reflexivity].
  unfold pass, ret. rewrite time_time_run. cbn [clock reads iterations trace].
  destruct (clock w (S (reads w))) as [t1 | ].
  - unfold lift. cbn [binary_sub as_int float_binop as_float].
    rewrite print_elapsed. unfold emit; cbn [clock reads iterations trace].
    now rewrite <- !app_assoc.
  - now rewrite <- !app_assoc.
Qed.

Lemma script_main_run (w : world) :
  script "__main__" w
  = match performance (snd (simple w)) with
    | (Ok _, w') => (Ok tt, w')
    | (Raise e, w') => (Raise e, w')
    end.
Proof. unfold script, bind. cbn [String.eqb Ascii.eqb Bool.eqb]. now rewrite simple_run. Qed.

Lemma stdout_emit_write (s : string) (w : world) :
  stdout (emit (EvWrite s) w) = (stdout w ++ s)%string.
Proof. unfold stdout, emit; simpl. rewrite written_app. simpl. now rewrite append_empty_r. Qed.

Lemma script_main_answered (w : world) (t0 t1 : float) :
  clock w (reads w) = Some t0 ->
  clock w (S (reads w)) = Some t1 ->
  script "__main__" w
  = (Ok tt,
     mkWorld (clock w) (S (S (reads w))) (iterations w + 10000000)
       (trace w ++
        [(iterations w, EvWrite (sum_text ++ nl));
         (iterations w, EvClock (Some t0));
         ((iterations w + 10000000)%N, EvClock (Some t1));
         ((iterations w + 10000000)%N,
          EvWrite (elapsed_text (float_sub t1 t0) ++ nl))])).
Proof.
  intros H0 H1.
  rewrite script_main_run, simple_run. cbn [snd].
  rewrite performance_run. cbn [clock reads iterations trace].
  rewrite H0, H1. now rewrite <- app_assoc.
Qed.

Lemma stdout_script_main (w : world) (t0 t1 : float) :
  clock w (reads w) = Some t0 ->
  clock w (S (reads w)) = Some t1 ->
  stdout (snd (script "__main__" w)) = (stdout w ++ report t0 t1)%string.
Proof.
  intros H0 H1. rewrite (script_main_answered w t0 t1 H0 H1).
  unfold stdout, report; cbn [snd trace].
  rewrite written_app. simpl. now rewrite append_empty_r.
Qed.

(** ** The claims *)

(** C1. For every pair of integers [a] and [b], [add(a, b)] returns exactly
    [a + b]: the sum of the unbounded integers, with no rounding. *)
Theorem add_integers (a b : Z) (w : world) :
  add (VInt a) (VInt b) w = (Ok (VInt (a + b)), w).
Proof. reflexivity. Qed.

(** C2. [add(3, 4)] returns 7, and [simple()] writes one line to standard
    output, the label "The sum is:" followed by 7; it reads no clock, runs
    no loop, writes nothing else, and returns [None]. *)
Theorem simple_prints_sum (w : world) :
  add (VInt 3) (VInt 4) w = (Ok (VInt 7), w) /\
  simple w
  = (Ok VNone,
     mkWorld (clock w) (reads w) (iterations w)
       (trace w ++ [(iterations w, EvWrite (sum_text ++ nl))])) /\
  stdout (snd (simple w)) = (stdout w ++ sum_text ++ nl)%string /\
  lines (sum_text ++ nl) = ["The sum is: 7"%string] /\
  contains "7" sum_text = true.
Proof.
  repeat split.
  rewrite simple_run. cbn [snd].
  exact (stdout_emit_write (sum_text ++ nl) w).
Qed.

(** C3. [performance()] reads the clock, then runs 10,000,000 times a loop
    body that does nothing, then reads the clock again, and writes one line
    that reports the second reading minus the first. *)
Theorem performance_timed_loop (w : world) (t0 t1 : float) :
  clock w (reads w) = Some t0 ->
  clock w (S (reads w)) = Some t1 ->
  for_range 10000000 (fun i => pass) w
  = (Ok (Some 9999999), add_iterations 10000000 w) /\
  performance w
  = (Ok VNone,
     mkWorld (clock w) (S (S (reads w))) (iterations w + 10000000)
       (trace w ++
        [(iterations w, EvClock (Some t0));
         ((iterations w + 10000000)%N, EvClock (Some t1));
         ((iterations w + 10000000)%N,
          EvWrite (elapsed_text (float_sub t1 t0) ++ nl))])) /\
  lines (elapsed_text (float_sub t1 t0) ++ nl) = [elapsed_text (float_sub t1 t0)].
Proof.
  intros H0 H1. split; [ | split].
  - now rewrite for_range_pass by lia.
  - now rewrite performance_run, H0, H1.
  - rewrite <- (append_empty_r nl).
    now rewrite lines_cons by apply elapsed_text_newline_free.
Qed.

(** C4, as amended. When the clock has not gone back between the two
    readings, the second being at least the first, the duration that
    [performance()] reports is not negative.  The clock of the script is
    the wall clock, which can be set back. *)
Theorem elapsed_nonnegative (w : world) (t0 t1 : float) :
  clock w (reads w) = Some t0 ->
  clock w (S (reads w)) = Some t1 ->
  is_float t0 = true -> is_finite t0 = true ->
  is_float t1 = true -> is_finite t1 = true ->
  float_le t0 t1 = true ->
  stdout (snd (performance w))
  = (stdout w ++ elapsed_text (float_sub t1 t0) ++ nl)%string /\
  float_le float_zero (float_sub t1 t0) = true.
Proof.
  intros H0 H1 V0 F0 V1 F1 Hle. split.
  - rewrite performance_run, H0, H1. unfold stdout; cbn [snd trace].
    rewrite written_app. simpl. now rewrite append_empty_r.
  - now apply float_sub_nonneg.
Qed.

(** C5. Run as the main program, the script calls [simple()] and then
    [performance()] and writes two lines, the first with "7" and the second
    with the duration; imported under another name, it calls neither and
    writes nothing. *)
Theorem main_guard (w : world) (t0 t1 : float) (name : string) :
  clock w (reads w) = Some t0 ->
  clock w (S (reads w)) = Some t1 ->
  String.eqb name "__main__" = false ->
  script "__main__" w
  = (Ok tt,
     mkWorld (clock w) (S (S (reads w))) (iterations w + 10000000)
       (trace w ++
        [(iterations w, EvWrite (sum_text ++ nl));
         (iterations w, EvClock (Some t0));
         ((iterations w + 10000000)%N, EvClock (Some t1));
         ((iterations w + 10000000)%N,
          EvWrite (elapsed_text (float_sub t1 t0) ++ nl))])) /\
  stdout (snd (script "__main__" w)) = (stdout w ++ report t0 t1)%string /\
  lines (report t0 t1) = [sum_text; elapsed_text (float_sub t1 t0)] /\
  contains "7" sum_text = true /\
  script name w = (Ok tt, w).
Proof.
  intros H0 H1 Hname. repeat split.
  - now apply script_main_answered.
  - now apply stdout_script_main.
  - apply lines_report.
  - unfold script. now rewrite Hname.
Qed.

Lemma run_answered (c : nat -> option float) (t0 t1 : float) :
  c 0%nat = Some t0 -> c 1%nat = Some t1 ->
  script "__main__" (boot c)
  = (Ok tt,
     mkWorld c 2 10000000
       [(0%N, EvWrite (sum_text ++ nl));
        (0%N, EvClock (Some t0));
        (10000000%N, EvClock (Some t1));
        (10000000%N, EvWrite (elapsed_text (float_sub t1 t0) ++ nl))]) /\
  run c = (0, report t0 t1).
Proof.
  intros H0 H1.
  pose proof (script_main_answered (boot c) t0 t1 H0 H1) as E.
  pose proof (stdout_script_main (boot c) t0 t1 H0 H1) as Hout.
  split; [exact E | ].
  unfold run. destruct (script "__main__" (boot c)) as [o w'].
  cbn [snd] in Hout. rewrite Hout. now inversion E.
Qed.

Lemma run_unanswered (c : nat -> option float) :
  clock_answers c = false ->
  fst (script "__main__" (boot c)) = Raise OSError /\ fst (run c) = 1.
Proof.
  unfold clock_answers, run. intros H.
  rewrite script_main_run, simple_run. cbn [snd].
  rewrite performance_run. cbn [clock reads iterations trace boot].
  destruct (c 0%nat) as [t0 | ]; [ | now split].
  destruct (c 1%nat) as [t1 | ]; [discriminate | now split].
Qed.

(** The exit status of a run under normal operation of standard output:
    0 when the clock answers both readings, otherwise 1 with the [OSError]
    of the clock unhandled. *)
Lemma run_exit_status (c : nat -> option float) :
  if clock_answers c
  then fst (script "__main__" (boot c)) = Ok tt /\ fst (run c) = 0
  else fst (script "__main__" (boot c)) = Raise OSError /\ fst (run c) = 1.
Proof.
  destruct (clock_answers c) eqn:A; [ | now apply run_unanswered].
  unfold clock_answers in A.
  destruct (c 0%nat) as [t0 | ] eqn:H0; [ | discriminate].
  destruct (c 1%nat) as [t1 | ] eqn:H1; [ | discriminate].
  destruct (run_answered c t0 t1 H0 H1) as [E R].
  now rewrite E, R.
Qed.

(** C7, as amended. [add] has no side effect.  On operands that are
    [int], [bool] or [float] it returns their sum: the exact sum of two
    integers, and otherwise the float sum of the operands, an [int] being
    converted to the nearest float first; except where an [int] operand
    meets a [float] operand and is too large to be converted to a float:
    there it raises [OverflowError]. *)
Theorem add_numeric (a b : value) (w : world) :
  is_numeric a = true -> is_numeric b = true ->
  snd (add a b w) = w /\
  fst (add a b w)
  = match as_int a, as_int b with
    | Some x, Some y => Ok (VInt (x + y))
    | _, _ =>
        if conversion_overflows a b then Raise OverflowError
        else Ok (VFloat (float_add (float_value a) (float_value b)))
    end.
Proof.
  intros Ha Hb. split; [reflexivity | ].
  unfold add, lift; cbn [fst].
  destruct a as [ | x | x | x | x | x]; try discriminate;
    destruct b as [ | y | y | y | y | y]; try discriminate;
    cbn [conversion_overflows binary_add as_int float_binop as_float float_value];
    try reflexivity;
    unfold float_of_int;
    match goal with
    | |- context [nearest_float ?z] => destruct (nearest_float z)
    end;
    reflexivity.
Qed.

(** C8. Two runs in which the clock answers write the same first line and
    a second line of the same shape, two lines each, and end with the same
    exit status; the runs differ in the duration alone. *)
Theorem runs_same_format (c1 c2 : nat -> option float) :
  clock_answers c1 = true -> clock_answers c2 = true ->
  exists s1 e1 s2 e2 : float,
    run c1 = (0, report s1 e1) /\
    run c2 = (0, report s2 e2) /\
    lines (report s1 e1) = [sum_text; elapsed_text (float_sub e1 s1)] /\
    lines (report s2 e2) = [sum_text; elapsed_text (float_sub e2 s2)].
Proof.
  unfold clock_answers. intros A1 A2.
  destruct (c1 0%nat) as [s1 | ] eqn:H10; [ | discriminate].
  destruct (c1 1%nat) as [e1 | ] eqn:H11; [ | discriminate].
  destruct (c2 0%nat) as [s2 | ] eqn:H20; [ | discriminate].
  destruct (c2 1%nat) as [e2 | ] eqn:H21; [ | discriminate].
  exists s1, e1, s2, e2.
  repeat split.
  - exact (proj2 (run_answered c1 s1 e1 H10 H11)).
  - exact (proj2 (run_answered c2 s2 e2 H20 H21)).
  - apply lines_report.
  - apply lines_report.
Qed.

(** C9. The loop of [performance()] changes the loop variable and the count
    of its turns and nothing else; what [performance()] reads and writes is
    a function of the two answers of the clock; and with [pass] in the
    place of the loop it returns, reads and writes the same. *)
Theorem loop_is_frame (w : world) :
  for_range 10000000 (fun i => pass) w
  = (Ok (Some 9999999), add_iterations 10000000 w) /\
  map snd (trace (snd (performance w)))
  = (map snd (trace w)
     ++ performance_events (clock w (reads w)) (clock w (S (reads w))))%list /\
  fst (performance w) = fst (performance_without_loop w) /\
  map snd (trace (snd (performance w)))
  = map snd (trace (snd (performance_without_loop w))) /\
  stdout (snd (performance w)) = stdout (snd (performance_without_loop w)) /\
  reads (snd (performance w)) = reads (snd (performance_without_loop w)) /\
  clock (snd (performance w)) = clock (snd (performance_without_loop w)).
Proof.
  split; [now rewrite for_range_pass by lia | ].
  rewrite performance_run, performance_without_loop_run. unfold stdout.
  destruct (clock w (reads w)) as [t0 | ];
    [destruct (clock w (S (reads w))) as [t1 | ] | ];
    cbn [fst snd trace reads clock performance_events];
    rewrite ?map_app, ?written_app; now repeat split.
Qed.

(** C10. [add] is not confined to numbers: it returns what [+] returns, the
    concatenation of two strings and of two lists. *)
Theorem add_sequences (s t : string) (l m : list value) (w : world) :
  add (VStr s) (VStr t) w = (Ok (VStr (s ++ t)), w) /\
  add (VList l) (VList m) w = (Ok (VList (l ++ m)), w) /\
  forall a b : value, add a b w = (binary_add a b, w).
Proof. now repeat split. Qed.

(** ** Further properties of the operators and of the script *)

Lemma digits2_pos_le (p : positive) (k : Z) :
  0 <= k -> Zpos p < 2 ^ k -> Zpos (digits2_pos p) <= k.
Proof.
  intros Hk H. pose proof (digits2_pos_bounds p) as [L _].
  destruct (Z.le_gt_cases (Zpos (digits2_pos p)) k) as [ | G]; trivial.
  assert (2 ^ k <= 2 ^ (Zpos (digits2_pos p) - 1)) by (apply Z.pow_le_mono_r; lia).
  lia.
Qed.

Lemma digits2_pos_iter_xO (p m : positive) :
  Zpos (digits2_pos (Pos.iter xO m p)) = Zpos (digits2_pos m) + Zpos p.
Proof.
  induction p as [ | p IH] using Pos.peano_ind.
  - simpl. lia.
  - rewrite Pos.iter_succ. cbn [digits2_pos]. lia.
Qed.

(** Aligning to a smaller exponent keeps the value and adds the digits. *)
Lemma shl_align_spec (m : positive) (e e' : Z) :
  e' <= e ->
  exists mz : positive,
    shl_align m e e' = (mz, e') /\
    Zpos mz = Zpos m * 2 ^ (e - e') /\
    Zpos (digits2_pos mz) = Zpos (digits2_pos m) + (e - e').
Proof.
  intros H. unfold shl_align.
  destruct (e' - e) as [ | d | d] eqn:E; try lia.
  - assert (e' = e) by lia. subst e'. exists m.
    rewrite Z.sub_diag, Z.pow_0_r. repeat split; lia.
  - exists (Pos.iter xO m d). rewrite iter_xO, digits2_pos_iter_xO.
    replace (e - e') with (Zpos d) by lia. now repeat split.
Qed.

(** A mantissa in canonical form is not rounded. *)
Lemma binary_round_aux_canonical (sx : bool) (m : positive) (e : Z) :
  bounded prec emax m e = true ->
  binary_round_aux prec emax sx (Zpos m) e loc_Exact = S754_finite sx m e.
Proof.
  unfold bounded, canonical_mantissa. intros H.
  apply andb_prop in H as [C B]. apply Z.eqb_eq in C.
  unfold binary_round_aux, shr_fexp. cbn [Zdigits2 shr_record_of_loc].
  rewrite C, Z.sub_diag. cbn [shr shr_m loc_of_shr_record round_nearest_even].
  cbn [Zdigits2 shr_record_of_loc]. rewrite C, Z.sub_diag. cbn [shr shr_m].
  now rewrite B.
Qed.

(** An integer of at most 53 digits, at an exponent of the range, is a
    float: rounding returns it, in canonical form. *)
Lemma binary_round_exact (sx : bool) (m : positive) (e : Z) :
  -1074 <= e <= 971 ->
  Zpos (digits2_pos m) <= 53 ->
  exists (m' : positive) (e' : Z),
    binary_round prec emax sx m e = S754_finite sx m' e' /\
    Zpos m' * 2 ^ (e' + 1074) = Zpos m * 2 ^ (e + 1074) /\
    bounded prec emax m' e' = true.
Proof.
  intros He Hd. unfold binary_round.
  set (e1 := fexp prec emax (Zpos (digits2_pos m) + e)).
  assert (B1 : -1074 <= e1 <= e) by (unfold e1, fexp, emin, prec, emax; lia).
  destruct (shl_align_spec m e e1 (proj2 B1)) as (mz & E & V & D).
  rewrite E.
  assert (Bz : bounded prec emax mz e1 = true).
  { unfold bounded, canonical_mantissa. rewrite D.
    replace (Zpos (digits2_pos m) + (e - e1) + e1) with (Zpos (digits2_pos m) + e) by lia.
    fold e1. rewrite Z.eqb_refl. apply Z.leb_le. unfold prec, emax. lia. }
  exists mz, e1. split; [now apply binary_round_aux_canonical | split; trivial].
  rewrite V, <- Z.mul_assoc, <- Z.pow_add_r by lia. f_equal. f_equal. lia.
Qed.

Lemma bounded_exponent (m : positive) (e : Z) :
  bounded prec emax m e = true -> -1074 <= e <= 971 /\ Zpos (digits2_pos m) <= 53.
Proof.
  unfold bounded, canonical_mantissa, fexp, emin, prec, emax. intros H.
  apply andb_prop in H as [C B]. apply Z.eqb_eq in C. apply Z.leb_le in B. lia.
Qed.

(** The conversion of an integer below 2^53 in magnitude is exact. *)
Lemma float_of_int_exact (z : Z) :
  Z.abs z < 2 ^ 53 ->
  exists f : float,
    float_of_int z = Ok f /\ ticks f = z * 2 ^ 1074 /\
    is_float f = true /\ is_finite f = true.
Proof.
  intros H. unfold float_of_int, nearest_float, binary_normalize.
  destruct z as [ | p | p].
  - exists (S754_zero false). now repeat split.
  - destruct (binary_round_exact false p 0) as (m' & e' & E & V & B);
      [lia | apply digits2_pos_le; lia | ].
    rewrite E. exists (S754_finite false m' e'). repeat split; trivial.
  - destruct (binary_round_exact true p 0) as (m' & e' & E & V & B);
      [lia | apply digits2_pos_le; lia | ].
    rewrite E. exists (S754_finite true m' e'). repeat split; trivial.
    cbn [ticks cond_Zopp]. rewrite V. cbn [Z.add]. lia.
Qed.

(** [x - x] is +0.0 for every finite [x]. *)
Lemma float_sub_diag (x : float) :
  is_finite x = true -> float_sub x x = S754_zero false.
Proof.
  destruct x as [s | s | | s m e]; try discriminate; intros _.
  - now destruct s.
  - unfold float_sub, SFsub. cbv zeta. now rewrite Z.sub_diag.
Qed.

Lemma binary_normalize_not_nan (m e : Z) (s : bool) :
  is_nan (binary_normalize prec emax m e s) = false.
Proof.
  destruct m as [ | p | p]; cbn [binary_normalize]; trivial.
  - destruct (binary_round_sign false p e) as [E | [E | (m' & e' & E)]];
      cbv zeta in E; now rewrite E.
  - destruct (binary_round_sign true p e) as [E | [E | (m' & e' & E)]];
      cbv zeta in E; now rewrite E.
Qed.

(** The difference of two finite floats is not a NaN. *)
Lemma float_sub_not_nan (x y : float) :
  is_finite x = true -> is_finite y = true -> is_nan (float_sub x y) = false.
Proof.
  destruct x as [sx | sx | | sx mx ex]; try discriminate;
    destruct y as [sy | sy | | sy my ey]; try discriminate; intros _ _;
    unfold float_sub, SFsub; trivial.
  - now destruct sx, sy.
  - apply binary_normalize_not_nan.
Qed.

Lemma ticks_pos (x : float) :
  0 < ticks x -> exists m e, x = S754_finite false m e.
Proof.
  destruct x as [s | s | | s m e]; cbn [ticks]; try lia.
  destruct s; cbn [cond_Zopp]; [ | eauto].
  intros H. assert (0 < 2 ^ (e + 1074) \/ 2 ^ (e + 1074) = 0) as [P | P].
  { pose proof (Z.pow_nonneg 2 (e + 1074)). lia. }
  - nia.
  - rewrite P in H. lia.
Qed.

(** When the second of two positive floats is at most twice the first,
    their difference is computed without rounding. *)
Lemma float_sub_exact (x y : float) :
  is_float x = true -> is_float y = true ->
  0 < ticks x -> ticks x <= ticks y <= 2 * ticks x ->
  ticks (float_sub y x) = ticks y - ticks x /\
  is_finite (float_sub y x) = true /\
  is_float (float_sub y x) = true.
Proof.
  intros Vx Vy Px [Lxy Lyx].
  destruct (ticks_pos x Px) as (mx & ex & ->).
  destruct (ticks_pos y) as (my & ey & ->); [lia | ].
  cbn [is_float valid_binary] in Vx, Vy.
  destruct (bounded_exponent mx ex Vx) as [Bex Dx].
  destruct (bounded_exponent my ey Vy) as [Bey Dy].
  cbn [ticks cond_Zopp] in *.
  assert (Hex : ex <= ey).
  { destruct (Z.le_gt_cases ex ey) as [ | G]; trivial. exfalso.
    unfold bounded in Vx, Vy.
    apply andb_prop in Vx as [Cx _]. apply andb_prop in Vy as [Cy _].
    pose proof (canonical_exponent_lt my mx ey ex Cy Cx G) as H.
    replace (ex + 1074) with ((ex - ey) + (ey + 1074)) in Lxy by lia.
    rewrite (Z.pow_add_r 2 (ex - ey) (ey + 1074)) in Lxy by lia.
    assert (0 < 2 ^ (ey + 1074)) by (apply Z.pow_pos_nonneg; lia).
    nia. }
  unfold float_sub, SFsub. cbv zeta. rewrite Z.min_r by lia.
  rewrite !shl_align_fst by lia. rewrite Z.sub_diag, Z.pow_0_r, Z.mul_1_r.
  cbn [cond_Zopp].
  replace (ey + 1074) with ((ey - ex) + (ex + 1074)) by lia.
  replace (ey + 1074) with ((ey - ex) + (ex + 1074)) in Lxy, Lyx by lia.
  rewrite (Z.pow_add_r 2 (ey - ex) (ex + 1074)) in * by lia.
  assert (P : 0 < 2 ^ (ex + 1074)) by (apply Z.pow_pos_nonneg; lia).
  set (D := Zpos my * 2 ^ (ey - ex) - Zpos mx).
  assert (HD : 0 <= D <= Zpos mx) by (unfold D; nia).
  assert (HV : D * 2 ^ (ex + 1074)
               = Zpos my * (2 ^ (ey - ex) * 2 ^ (ex + 1074))
                 - Zpos mx * 2 ^ (ex + 1074)) by (unfold D; ring).
  clearbody D.
  destruct D as [ | p | p]; [ | | lia].
  - cbn [binary_normalize ticks]. repeat split. lia.
  - cbn [binary_normalize].
    destruct (binary_round_exact false p ex) as (m' & e' & E & V & B).
    + lia.
    + pose proof (digits2_pos_bounds mx) as [_ U].
      apply digits2_pos_le; [lia | ].
      assert (2 ^ Zpos (digits2_pos mx) <= 2 ^ 53) by (apply Z.pow_le_mono_r; lia).
      lia.
    + rewrite E. cbn [ticks cond_Zopp is_finite is_float valid_binary].
      repeat split; trivial. lia.
Qed.

Lemma shr_1_half (mrs : shr_record) :
  0 <= shr_m mrs -> shr_m (shr_1 mrs) = shr_m mrs / 2.
Proof.
  destruct mrs as [m r s]. cbn [shr_m]. intros H.
  rewrite <- Z.div2_div.
  destruct m as [ | [p | p | ] | p]; try reflexivity. lia.
Qed.

Lemma iter_shr_1 (n : positive) (mrs : shr_record) :
  0 <= shr_m mrs ->
  shr_m (iter_pos shr_1 n mrs) = shr_m mrs / 2 ^ Zpos n.
Proof.
  revert mrs. induction n as [n IH | n IH | ]; intros mrs H; cbn [iter_pos].
  - assert (H1 : 0 <= shr_m (shr_1 mrs)) by now apply shr_1_nonneg.
    assert (H2 : 0 <= shr_m (iter_pos shr_1 n (shr_1 mrs)))
      by (apply iter_pos_invariant; [exact shr_1_nonneg | trivial]).
    rewrite IH, IH, shr_1_half by trivial.
    assert (P : 0 < 2 ^ Zpos n) by (apply Z.pow_pos_nonneg; lia).
    rewrite !Z.div_div by lia.
    f_equal. rewrite (Pos2Z.inj_xI n).
    replace (2 * Zpos n + 1) with (1 + Zpos n + Zpos n) by lia.
    rewrite !Z.pow_add_r by lia. lia.
  - assert (H2 : 0 <= shr_m (iter_pos shr_1 n mrs))
      by (apply iter_pos_invariant; [exact shr_1_nonneg | trivial]).
    rewrite IH, IH by trivial.
    assert (P : 0 < 2 ^ Zpos n) by (apply Z.pow_pos_nonneg; lia).
    rewrite Z.div_div by lia.
    f_equal. rewrite (Pos2Z.inj_xO n).
    replace (2 * Zpos n) with (Zpos n + Zpos n) by lia.
    now rewrite Z.pow_add_r by lia.
  - now rewrite shr_1_half.
Qed.

Lemma digits2_pos_unique (p : positive) (k : Z) :
  2 ^ (k - 1) <= Zpos p < 2 ^ k -> Zpos (digits2_pos p) = k.
Proof.
  intros [L U]. pose proof (digits2_pos_bounds p) as [L' U'].
  destruct (Z.lt_trichotomy (Zpos (digits2_pos p)) k) as [G | [E | G]]; trivial; exfalso.
  - assert (2 ^ Zpos (digits2_pos p) <= 2 ^ (k - 1)) by (apply Z.pow_le_mono_r; lia).
    lia.
  - assert (0 <= k \/ k < 0) as [K | K] by lia.
    + assert (2 ^ k <= 2 ^ (Zpos (digits2_pos p) - 1)) by (apply Z.pow_le_mono_r; lia).
      lia.
    + rewrite (Z.pow_neg_r 2 k) in U by lia. lia.
Qed.

(** The second normalisation of [binary_round_aux], after the rounding: a
    mantissa of 53 digits stays, one of 54 digits loses a digit. *)
Lemma shr_fexp_rounded (m e : Z) :
  2 ^ 52 <= m <= 2 ^ 53 -> -1074 <= e ->
  exists (mrs : shr_record) (q : positive) (e' : Z),
    shr_fexp prec emax m e loc_Exact = (mrs, e') /\
    shr_m mrs = Zpos q /\ e <= e' <= e + 1.
Proof.
  intros [L U] He. destruct m as [ | p | p]; try lia.
  unfold shr_fexp. cbn [Zdigits2 shr_record_of_loc].
  destruct (Z.eq_dec (Zpos p) (2 ^ 53)) as [E | N].
  - rewrite (digits2_pos_unique p 54) by (rewrite E; split; [reflexivity | reflexivity]).
    replace (fexp prec emax (54 + e) - e) with 1
      by (unfold fexp, emin, prec, emax; lia).
    cbn [shr iter_pos]. eexists _, (2 ^ 52)%positive, _. split; [reflexivity | ].
    split; [ | lia].
    rewrite shr_1_half by (cbn [shr_m]; lia). cbn [shr_m]. now rewrite E.
  - rewrite (digits2_pos_unique p 53) by (change (53 - 1) with 52; lia).
    replace (fexp prec emax (53 + e) - e) with 0
      by (unfold fexp, emin, prec, emax; lia).
    cbn [shr]. eexists _, p, _. split; [reflexivity | ]. split; [reflexivity | lia].
Qed.

(** An integer of more than 53 digits is rounded to a float of the same
    sign, never to a zero; the float is finite while the integer is below
    2^1023 in magnitude (at exponent 0). *)
Lemma binary_round_large (sx : bool) (p : positive) (e : Z) :
  53 < Zpos (digits2_pos p) -> -1074 <= e ->
  exists (q : positive) (e' : Z),
    e' <= Zpos (digits2_pos p) + e - 52 /\
    binary_round prec emax sx p e
    = if e' <=? emax - prec then S754_finite sx q e' else S754_infinity sx.
Proof.
  intros Hd He. unfold binary_round.
  set (d := Zpos (digits2_pos p)) in *.
  assert (F : fexp prec emax (d + e) = d + e - 53)
    by (unfold fexp, emin, prec, emax; lia).
  rewrite F. unfold shl_align.
  destruct (d + e - 53 - e) as [ | n | n] eqn:En; try lia.
  unfold binary_round_aux, shr_fexp at 1.
  cbn [Zdigits2 shr_record_of_loc]. fold d. rewrite F, En. cbn [shr].
  set (mrs' := iter_pos shr_1 n _).
  assert (M : shr_m mrs' = Zpos p / 2 ^ Zpos n)
    by (unfold mrs'; now rewrite iter_shr_1 by (cbn [shr_m]; lia)).
  pose proof (digits2_pos_bounds p) as [L U]. fold d in L, U.
  assert (Pn : 0 < 2 ^ Zpos n) by (apply Z.pow_pos_nonneg; lia).
  assert (Ed : d - 1 = Zpos n + 52) by lia.
  assert (Ed' : d = Zpos n + 53) by lia.
  assert (B : 2 ^ 52 <= shr_m mrs' < 2 ^ 53).
  { rewrite M. split.
    - apply Z.div_le_lower_bound; [lia | ].
      rewrite <- Z.pow_add_r by lia. now rewrite <- Ed.
    - apply Z.div_lt_upper_bound; [lia | ].
      rewrite <- Z.pow_add_r by lia. now rewrite <- Ed'. }
  assert (R : 2 ^ 52 <= round_nearest_even (shr_m mrs') (loc_of_shr_record mrs') <= 2 ^ 53).
  { destruct (loc_of_shr_record mrs') as [ | [ | | ]]; cbn [round_nearest_even];
      try lia. destruct (Z.even (shr_m mrs')); lia. }
  destruct (shr_fexp_rounded _ (e + Zpos n) R) as (mrs'' & q & e' & E & Q & He'); [lia | ].
  rewrite E, Q. exists q, e'. split; [lia | reflexivity].
Qed.

(** A non-zero integer at an exponent of the range is never rounded to a
    zero. *)
Lemma binary_round_nonzero (sx : bool) (p : positive) (e : Z) :
  -1074 <= e <= 971 ->
  binary_round prec emax sx p e = S754_infinity sx \/
  exists q e', binary_round prec emax sx p e = S754_finite sx q e'.
Proof.
  intros He.
  destruct (Z.le_gt_cases (Zpos (digits2_pos p)) 53) as [S | L].
  - destruct (binary_round_exact sx p e He S) as (q & e' & E & _). eauto.
  - destruct (binary_round_large sx p e) as (q & e' & _ & E); [lia | lia | ].
    rewrite E. destruct (e' <=? emax - prec); eauto.
Qed.

(** The conversion of an integer below 2^1023 in magnitude gives a finite
    float. *)
Lemma float_of_int_in_range (z : Z) :
  Z.abs z < 2 ^ 1023 ->
  exists f : float, float_of_int z = Ok f /\ is_finite f = true.
Proof.
  intros H. unfold float_of_int, nearest_float, binary_normalize.
  assert (R : forall (s : bool) (p : positive),
             Zpos p < 2 ^ 1023 ->
             exists q e', binary_round prec emax s p 0 = S754_finite s q e').
  { intros s p Hp.
    destruct (Z.le_gt_cases (Zpos (digits2_pos p)) 53) as [S | L].
    - destruct (binary_round_exact s p 0) as (q & e' & E & _); [lia | trivial | eauto].
    - destruct (binary_round_large s p 0) as (q & e' & B & E); [lia | lia | ].
      assert (D : Zpos (digits2_pos p) <= 1023) by (apply digits2_pos_le; lia).
      rewrite E. replace (e' <=? emax - prec) with true; [eauto | ].
      symmetry. apply Z.leb_le. unfold emax, prec. lia. }
  destruct z as [ | p | p].
  - exists (S754_zero false). now split.
  - destruct (R false p) as (q & e' & E); [lia | ]. rewrite E. eauto.
  - destruct (R true p) as (q & e' & E); [lia | ]. rewrite E. eauto.
Qed.

Lemma compare_cont_Eq_lt (m1 m2 : positive) :
  Pos.compare_cont Eq m1 m2 = Lt -> Zpos m1 < Zpos m2.
Proof. intros H. change (Pos.compare m1 m2 = Lt) in H. apply Pos2Z.pos_lt_pos. exact H. Qed.

Lemma compare_cont_Eq_gt (m1 m2 : positive) :
  CompOpp (Pos.compare_cont Eq m1 m2) = Lt -> Zpos m2 < Zpos m1.
Proof.
  change (Pos.compare_cont Eq m1 m2) with (Pos.compare m1 m2).
  rewrite <- Pos.compare_antisym. intros H. apply Pos2Z.pos_lt_pos. exact H.
Qed.

(** Where Python's [x < y] holds of two finite floats, the difference of
    their aligned mantissas, as [y - x] computes it, is positive. *)
Lemma aligned_difference_pos (sx sy : bool) (mx my : positive) (ex ey : Z) :
  bounded prec emax mx ex = true ->
  bounded prec emax my ey = true ->
  float_lt (S754_finite sx mx ex) (S754_finite sy my ey) = true ->
  0 < cond_Zopp sy (Zpos (fst (shl_align my ey (Z.min ey ex))))
      - cond_Zopp sx (Zpos (fst (shl_align mx ex (Z.min ey ex)))).
Proof.
  unfold bounded. intros Bx By Hlt.
  apply andb_prop in Bx as [Cx _]. apply andb_prop in By as [Cy _].
  rewrite !shl_align_fst by lia.
  unfold float_lt, SFltb, SFcompare in Hlt.
  destruct sx, sy; unfold cond_Zopp; try discriminate.
  - destruct (Z.compare_spec ex ey) as [E | L | G].
    + subst ey. rewrite Z.min_id, Z.sub_diag, Z.pow_0_r.
      assert (Zpos my < Zpos mx); [ | lia].
      apply compare_cont_Eq_gt. now destruct (CompOpp _).
    + discriminate.
    + rewrite Z.min_l by lia. rewrite Z.sub_diag.
      pose proof (canonical_exponent_lt my mx ey ex Cy Cx G). rewrite Z.pow_0_r. lia.
  - assert (0 < 2 ^ (ey - Z.min ey ex)) by (apply Z.pow_pos_nonneg; lia).
    assert (0 < 2 ^ (ex - Z.min ey ex)) by (apply Z.pow_pos_nonneg; lia).
    nia.
  - destruct (Z.compare_spec ex ey) as [E | L | G].
    + subst ey. rewrite Z.min_id, Z.sub_diag, Z.pow_0_r.
      assert (Zpos mx < Zpos my); [ | lia].
      apply compare_cont_Eq_lt. now destruct (Pos.compare_cont _ _ _).
    + rewrite Z.min_r by lia. rewrite Z.sub_diag.
      pose proof (canonical_exponent_lt mx my ex ey Cx Cy L). rewrite Z.pow_0_r. lia.
    + discriminate.
Qed.

Lemma positive_sign_lt (x : float) :
  positive_sign x = true -> float_lt float_zero x = true.
Proof. destruct x as [s | s | | s m e]; simpl; try discriminate; now destruct s. Qed.

(** [y - x] of two finite floats with [x < y] is positive: it does not
    vanish, however close the floats are. *)
Lemma float_sub_pos (x y : float) :
  is_float x = true -> is_float y = true ->
  is_finite x = true -> is_finite y = true ->
  float_lt x y = true ->
  float_lt float_zero (float_sub y x) = true.
Proof.
  intros Vx Vy Fx Fy Hlt. apply positive_sign_lt.
  destruct x as [sx | sx | | sx mx ex]; try discriminate;
    destruct y as [sy | sy | | sy my ey]; try discriminate.
  - unfold float_sub; simpl. unfold float_lt in Hlt; simpl in Hlt. now destruct sy.
  - unfold float_sub; simpl. unfold float_lt in Hlt; simpl in Hlt. now destruct sx.
  - pose proof (aligned_difference_pos sx sy mx my ex ey Vx Vy Hlt) as D.
    destruct (bounded_exponent mx ex Vx) as [Bex _].
    destruct (bounded_exponent my ey Vy) as [Bey _].
    unfold float_sub, SFsub. cbv zeta.
    destruct (_ - _) as [ | p | p]; try lia.
    cbn [binary_normalize].
    destruct (binary_round_nonzero false p (Z.min ey ex)) as [E | (q & e' & E)];
      [lia | now rewrite E | now rewrite E].
Qed.

Lemma float_of_int_raises (z : Z) (e : exn) :
  float_of_int z = Raise e -> e = OverflowError.
Proof.
  unfold float_of_int. destruct (nearest_float z); intros H; now inversion H.
Qed.

(** X1. Among operands that are [None], [bool], [int], [float], [str] or
    [list], [add] raises [TypeError] exactly when the two operands are not of
    one family: two numbers, two strings or two lists. *)
Theorem add_type_error (a b : value) (w : world) :
  fst (add a b w) = Raise TypeError <-> same_family a b = false.
Proof.
  unfold add, lift, same_family; cbn [fst].
  destruct a as [ | x | x | x | x | x], b as [ | y | y | y | y | y];
    cbn [family_of family_eqb binary_add as_int float_binop as_float];
    try (split; [discriminate | discriminate]);
    try (split; reflexivity);
    repeat match goal with
      | |- context [float_of_int ?z] =>
          let E := fresh "E" in
          destruct (float_of_int z) eqn:E;
          [ | apply float_of_int_raises in E; subst ]
      end;
    first [split; discriminate | split; reflexivity].
Qed.

Lemma float_add_comm (x y : float) : float_add x y = float_add y x.
Proof.
  unfold float_add, SFadd.
  destruct x as [sx | sx | | sx mx ex], y as [sy | sy | | sy my ey]; trivial;
    try (now destruct sx, sy).
  cbv zeta. now rewrite Z.min_comm, Z.add_comm.
Qed.

(** X2. On numbers [add] is commutative, in what it returns and in what it
    raises, also where an [int] meets a [float]. *)
Theorem add_numeric_comm (a b : value) (w : world) :
  is_numeric a = true -> is_numeric b = true -> add a b w = add b a w.
Proof.
  intros Ha Hb. unfold add, lift. f_equal.
  destruct a as [ | x | x | x | x | x]; try discriminate;
    destruct b as [ | y | y | y | y | y]; try discriminate;
    cbn [binary_add as_int float_binop as_float];
    rewrite ?(Z.add_comm (Z.b2z y)), ?(Z.add_comm y); trivial;
    repeat match goal with
      | |- context [float_of_int ?z] =>
          let E := fresh "E" in
          destruct (float_of_int z) eqn:E;
          [ | apply float_of_int_raises in E; subst ]
      end;
    trivial; now rewrite float_add_comm.
Qed.

(** X3. Two calls of [add] associate on three integers, three strings and
    three lists: [add(add(a, b), c)] is [add(a, add(b, c))]. *)
Theorem add_assoc (a b c : value) (w : world) :
  exact_operands a b c = true ->
  (x <- add a b ;; add x c) w = (y <- add b c ;; add a y) w.
Proof.
  intros H.
  destruct a as [ | x | x | x | x | x]; try discriminate;
    destruct b as [ | y | y | y | y | y]; try discriminate;
    destruct c as [ | z | z | z | z | z]; try discriminate;
    unfold bind, add, lift; cbn;
    now rewrite ?Z.add_assoc, ?append_assoc, ?app_assoc.
Qed.

(** X4. Where the clock fails, [performance()] raises the [OSError] and
    writes nothing: at the first reading before any turn of the loop, at
    the second after the 10,000,000 turns. *)
Theorem performance_clock_failure (w : world) :
  let w' := snd (performance w) in
  match clock w (reads w), clock w (S (reads w)) with
  | None, _ =>
      fst (performance w) = Raise OSError /\
      reads w' = S (reads w) /\ iterations w' = iterations w /\
      stdout w' = stdout w
  | Some _, None =>
      fst (performance w) = Raise OSError /\
      reads w' = S (S (reads w)) /\
      iterations w' = (iterations w + 10000000)%N /\
      stdout w' = stdout w
  | Some t0, Some t1 =>
      fst (performance w) = Ok VNone /\
      reads w' = S (S (reads w)) /\
      iterations w' = (iterations w + 10000000)%N /\
      stdout w' = (stdout w ++ elapsed_text (float_sub t1 t0) ++ nl)%string
  end.
Proof.
  cbv zeta. rewrite performance_run. unfold stdout.
  destruct (clock w (reads w)) as [t0 | ];
    [destruct (clock w (S (reads w))) as [t1 | ] | ];
    cbn [fst snd reads iterations trace]; rewrite written_app; cbn [written];
    now rewrite ?append_empty_r.
Qed.

(** X5. A run in which the clock fails has written the line of the sum,
    and that line alone, when it ends with exit status 1. *)
Theorem run_output_on_failure (c : nat -> option float) :
  clock_answers c = false ->
  run c = (1, (sum_text ++ nl)%string).
Proof.
  unfold clock_answers, run. intros H.
  rewrite script_main_run, simple_run. cbn [snd].
  rewrite performance_run. cbn [clock reads iterations trace boot].
  destruct (c 0%nat) as [t0 | ]; [ | reflexivity].
  destruct (c 1%nat) as [t1 | ]; [discriminate | reflexivity].
Qed.

(** X6. [simple()] and [performance()] do not depend on each other: in
    either order they write the same two texts, [performance()] ends the
    same way, and the clock is read and the loop run as many times. *)
Theorem simple_performance_commute (w : world) :
  let w1 := snd (performance (snd (simple w))) in
  let w2 := snd (simple (snd (performance w))) in
  exists text : string,
    stdout (snd (performance w)) = (stdout w ++ text)%string /\
    stdout w1 = (stdout w ++ (sum_text ++ nl) ++ text)%string /\
    stdout w2 = (stdout w ++ text ++ (sum_text ++ nl))%string /\
    fst (performance (snd (simple w))) = fst (performance w) /\
    reads w1 = reads w2 /\ iterations w1 = iterations w2 /\ clock w1 = clock w2.
Proof.
  cbv zeta. rewrite !simple_run. cbn [snd]. rewrite !performance_run.
  cbn [clock reads iterations trace]. unfold stdout.
  destruct (clock w (reads w)) as [t0 | ];
    [destruct (clock w (S (reads w))) as [t1 | ] | ].
  - exists (elapsed_text (float_sub t1 t0) ++ nl)%string.
    cbn [fst snd clock reads iterations trace].
    rewrite !written_app. cbn [written].
    rewrite ?append_empty_r, ?append_assoc. now repeat split.
  - exists ""%string.
    cbn [fst snd clock reads iterations trace].
    rewrite !written_app. cbn [written].
    rewrite ?append_empty_r, ?append_assoc. cbn [append]. now repeat split.
  - exists ""%string.
    cbn [fst snd clock reads iterations trace].
    rewrite !written_app. cbn [written].
    rewrite ?append_empty_r, ?append_assoc. cbn [append]. now repeat split.
Qed.

Lemma stdout_performance (w : world) (t0 t1 : float) :
  clock w (reads w) = Some t0 ->
  clock w (S (reads w)) = Some t1 ->
  stdout (snd (performance w))
  = (stdout w ++ elapsed_text (float_sub t1 t0) ++ nl)%string.
Proof.
  intros H0 H1. rewrite performance_run, H0, H1. unfold stdout; cbn [snd trace].
  rewrite written_app. simpl. now rewrite append_empty_r.
Qed.

(** X7. When the clock has not advanced, both readings being the same
    finite float, [performance()] reports +0.0. *)
Theorem elapsed_zero (w : world) (t : float) :
  clock w (reads w) = Some t ->
  clock w (S (reads w)) = Some t ->
  is_finite t = true ->
  float_sub t t = float_zero /\
  stdout (snd (performance w))
  = (stdout w ++ elapsed_text float_zero ++ nl)%string.
Proof.
  intros H0 H1 F. split; [now apply float_sub_diag | ].
  rewrite (stdout_performance w t t H0 H1). now rewrite float_sub_diag.
Qed.

(** X8. Whatever two finite readings the clock gives, also when it was set
    back, the duration that [performance()] reports is not a NaN. *)
Theorem elapsed_not_nan (w : world) (t0 t1 : float) :
  clock w (reads w) = Some t0 ->
  clock w (S (reads w)) = Some t1 ->
  is_finite t0 = true -> is_finite t1 = true ->
  stdout (snd (performance w))
  = (stdout w ++ elapsed_text (float_sub t1 t0) ++ nl)%string /\
  is_nan (float_sub t1 t0) = false.
Proof.
  intros H0 H1 F0 F1. split; [now apply stdout_performance | ].
  now apply float_sub_not_nan.
Qed.

(** X9. When the clock has advanced from a positive reading to at most
    twice that reading, the duration that [performance()] reports is the
    exact difference of the two readings: the subtraction rounds nothing. *)
Theorem elapsed_exact (w : world) (t0 t1 : float) :
  clock w (reads w) = Some t0 ->
  clock w (S (reads w)) = Some t1 ->
  is_float t0 = true -> is_float t1 = true ->
  0 < ticks t0 -> ticks t0 <= ticks t1 -> ticks t1 <= 2 * ticks t0 ->
  stdout (snd (performance w))
  = (stdout w ++ elapsed_text (float_sub t1 t0) ++ nl)%string /\
  ticks (float_sub t1 t0) = ticks t1 - ticks t0 /\
  is_finite (float_sub t1 t0) = true.
Proof.
  intros H0 H1 V0 V1 P L U. split; [now apply stdout_performance | ].
  destruct (float_sub_exact t0 t1 V0 V1 P (conj L U)) as (E & F & _).
  now split.
Qed.

(** X10. When the clock has advanced, the first of two finite readings
    being less than the second, the duration that [performance()] reports
    is greater than zero: it does not vanish, however close the readings. *)
Theorem elapsed_positive (w : world) (t0 t1 : float) :
  clock w (reads w) = Some t0 ->
  clock w (S (reads w)) = Some t1 ->
  is_float t0 = true -> is_finite t0 = true ->
  is_float t1 = true -> is_finite t1 = true ->
  float_lt t0 t1 = true ->
  stdout (snd (performance w))
  = (stdout w ++ elapsed_text (float_sub t1 t0) ++ nl)%string /\
  float_lt float_zero (float_sub t1 t0) = true.
Proof.
  intros H0 H1 V0 F0 V1 F1 Hlt. split; [now apply stdout_performance | ].
  now apply float_sub_pos.
Qed.

(** X11. [add] of an [int] below 2^1023 in magnitude and a [float], in
    either order, returns: the [int] is converted to a finite float and
    no [OverflowError] is raised. *)
Theorem add_int_float_returns (z : Z) (y : float) (w : world) :
  Z.abs z < 2 ^ 1023 ->
  exists f : float,
    is_finite f = true /\
    add (VInt z) (VFloat y) w = (Ok (VFloat (float_add f y)), w) /\
    add (VFloat y) (VInt z) w = (Ok (VFloat (float_add y f)), w).
Proof.
  intros H. destruct (float_of_int_in_range z H) as (f & E & F).
  exists f. unfold add, lift.
  cbn [binary_add as_int float_binop as_float]. now rewrite E.
Qed.

(** X12. [add] of an [int] below 2^53 in magnitude and a [float] converts
    the [int] without rounding: the float operand of the sum has the value
    of the [int]. *)
Theorem add_int_float_exact (z : Z) (y : float) (w : world) :
  Z.abs z < 2 ^ 53 ->
  exists f : float,
    ticks f = z * 2 ^ 1074 /\ is_float f = true /\
    add (VInt z) (VFloat y) w = (Ok (VFloat (float_add f y)), w) /\
    add (VFloat y) (VInt z) w = (Ok (VFloat (float_add y f)), w).
Proof.
  intros H. destruct (float_of_int_exact z H) as (f & E & T & V & _).
  exists f. unfold add, lift.
  cbn [binary_add as_int float_binop as_float]. now rewrite E.
Qed.

(** ** The script in an environment *)

Lemma checkpoint_run (E : environment) (p : process) :
  checkpoint E p
  = (if interrupted_at E (checkpoints p)
     then Raise KeyboardInterrupt else Ok tt,
     mkProcess (proc_world p) (prints p) (checkpoints p + 1)).
Proof. unfold checkpoint. now destruct (interrupted_at E (checkpoints p)). Qed.

Lemma interrupted_in_single (E : environment) (c : N) :
  interrupted_in E c (c + 1) = interrupted_at E c.
Proof.
  unfold interrupted_in, interrupted_at. destruct (env_interrupt E) as [k | ]; trivial.
  destruct (N.eqb_spec k c), (N.leb_spec c k), (N.ltb_spec k (c + 1)); trivial; lia.
Qed.

Lemma interrupted_in_split (E : environment) (lo mid hi : N) :
  (lo <= mid)%N -> (mid <= hi)%N ->
  interrupted_in E lo hi = interrupted_in E lo mid || interrupted_in E mid hi.
Proof.
  intros H1 H2. unfold interrupted_in. destruct (env_interrupt E) as [k | ]; trivial.
  destruct (N.leb_spec lo k), (N.ltb_spec k hi), (N.ltb_spec k mid), (N.leb_spec mid k);
    trivial; lia.
Qed.

(** After [k] turns of the loop of [performance()] in an environment: an
    interrupt that arrived at one of the [k] checkpoints has ended the loop
    at that turn; otherwise [k] turns are done. *)
Lemma iter_pass_in (E : environment) (k : N) (p : process) :
  N.iter k (loop_step_in E (fun _ => ret_in tt)) (0, (Ok None, p))
  = if interrupted_in E (checkpoints p) (checkpoints p + k)
    then (Z.of_N (interrupt_point E - checkpoints p) + 1,
          (Raise KeyboardInterrupt,
           mkProcess (add_iterations (interrupt_point E - checkpoints p) (proc_world p))
             (prints p) (interrupt_point E + 1)))
    else (Z.of_N k,
          (Ok (if (k =? 0)%N then None else Some (Z.of_N k - 1)),
           mkProcess (add_iterations k (proc_world p)) (prints p) (checkpoints p + k))).
Proof.
  induction k as [ | k IH] using N.peano_ind.
  - replace (interrupted_in E (checkpoints p) (checkpoints p + 0)) with false.
    + simpl. rewrite add_iterations_0, N.add_0_r. now destruct p.
    + unfold interrupted_in. destruct (env_interrupt E) as [t | ]; trivial.
      destruct (N.leb_spec (checkpoints p) t), (N.ltb_spec t (checkpoints p + 0));
        trivial; lia.
  - rewrite N.iter_succ, IH.
    rewrite (interrupted_in_split E (checkpoints p) (checkpoints p + k)
               (checkpoints p + N.succ k)) by lia.
    destruct (interrupted_in E (checkpoints p) (checkpoints p + k)) eqn:I; [reflexivity | ].
    cbn [orb]. replace (checkpoints p + N.succ k)%N with (checkpoints p + k + 1)%N by lia.
    rewrite interrupted_in_single.
    unfold loop_step_in, bind_in. rewrite checkpoint_run. cbn [checkpoints prints proc_world].
    destruct (interrupted_at E (checkpoints p + k)) eqn:A.
    + unfold interrupted_at, interrupt_point in *.
      destruct (env_interrupt E) as [t | ]; [ | discriminate].
      apply N.eqb_eq in A. subst t.
      replace (checkpoints p + k - checkpoints p)%N with k by lia.
      reflexivity.
    + unfold in_world, ret_in. cbn [checkpoints prints proc_world].
      rewrite add_iterations_succ.
      destruct (N.eqb_spec (N.succ k) 0) as [Z0 | _]; [lia | ].
      repeat f_equal; lia.
Qed.

Lemma for_range_in_pass (E : environment) (n : Z) (p : process) :
  0 < n ->
  for_range_in E n (fun _ => ret_in tt) p
  = if interrupted_in E (checkpoints p) (checkpoints p + Z.to_N n)
    then (Raise KeyboardInterrupt,
          mkProcess (add_iterations (interrupt_point E - checkpoints p) (proc_world p))
            (prints p) (interrupt_point E + 1))
    else (Ok (Some (n - 1)),
          mkProcess (add_iterations (Z.to_N n) (proc_world p)) (prints p)
            (checkpoints p + Z.to_N n)).
Proof.
  intros H. unfold for_range_in. rewrite iter_pass_in.
  destruct (interrupted_in E _ _); cbn [snd]; trivial.
  destruct (N.eqb_spec (Z.to_N n) 0) as [Z0 | _]; [lia | ].
  repeat f_equal; lia.
Qed.

Lemma first_fault_points (E : environment) :
  first_fault E
  = if interrupted_at E 0 || interrupted_at E 1 || interrupted_at E 2
    then Some KeyboardInterrupt else
    match env_stdout E 0%nat with
    | Some f => Some (exn_of_write_fault f)
    | None =>
    if interrupted_at E 3 || interrupted_at E 4 then Some KeyboardInterrupt else
    match env_clock E 0%nat with
    | None => Some OSError
    | Some _ =>
    if interrupted_in E 5 10000005 || interrupted_at E 10000005
    then Some KeyboardInterrupt else
    match env_clock E 1%nat with
    | None => Some OSError
    | Some _ =>
    if interrupted_at E 10000006 then Some KeyboardInterrupt else
    match env_stdout E 1%nat with
    | Some f => Some (exn_of_write_fault f)
    | None => None
    end end end end.
Proof.
  unfold first_fault.
  rewrite (interrupted_in_split E 0 2 3), (interrupted_in_split E 0 1 2) by lia.
  rewrite (interrupted_in_split E 3 4 5) by lia.
  rewrite (interrupted_in_split E 5 10000005 10000006) by lia.
  change 1%N with (0 + 1)%N at 1. change 2%N with (1 + 1)%N at 1.
  change 3%N with (2 + 1)%N at 1. change 4%N with (3 + 1)%N at 1.
  change 5%N with (4 + 1)%N at 1.
  change 10000006%N with (10000005 + 1)%N at 1.
  change 10000007%N with (10000006 + 1)%N at 1.
  rewrite !interrupted_in_single.
  reflexivity.
Qed.

Lemma in_world_run {A : Type} (m : py A) (p : process) :
  in_world m p
  = (fst (m (proc_world p)),
     mkProcess (snd (m (proc_world p))) (prints p) (checkpoints p)).
Proof. unfold in_world. now destruct (m (proc_world p)). Qed.

Lemma ret_in_run {A : Type} (a : A) (p : process) : ret_in a p = (Ok a, p).
Proof. reflexivity. Qed.

Lemma print_in_run (E : environment) (args : list value) (p : process) :
  print_in E args p
  = match env_stdout E (prints p) with
    | None =>
        (Ok VNone,
         mkProcess (snd (print args (proc_world p))) (S (prints p)) (checkpoints p))
    | Some f =>
        (Raise (exn_of_write_fault f),
         mkProcess (proc_world p) (S (prints p)) (checkpoints p))
    end.
Proof. unfold print_in. now destruct (env_stdout E (prints p)). Qed.

(** What a run in an environment does: it ends with the first fault it
    meets, and in the absence of a fault it does what the script does under
    normal operation. *)
Lemma script_in_run (E : environment) :
  match first_fault E with
  | Some e => fst (script_in E "__main__" (start E)) = Raise e
  | None =>
      exists t0 t1 : float,
        env_clock E 0%nat = Some t0 /\ env_clock E 1%nat = Some t1 /\
        script_in E "__main__" (start E)
        = (Ok tt,
           mkProcess
             (mkWorld (env_clock E) 2 10000000
                [(0%N, EvWrite (sum_text ++ nl));
                 (0%N, EvClock (Some t0));
                 (10000000%N, EvClock (Some t1));
                 (10000000%N, EvWrite (elapsed_text (float_sub t1 t0) ++ nl))])
             2 10000007)
  end.
Proof.
  rewrite first_fault_points.
  unfold script_in, simple_in, performance_in, bind_in, start.
  cbn [String.eqb Ascii.eqb Bool.eqb].
  rewrite checkpoint_run. cbn [checkpoints prints proc_world].
  change (0 + 1)%N with 1%N.
  destruct (interrupted_at E 0); [reflexivity | ]. cbv beta iota zeta. cbn [orb].
  rewrite checkpoint_run. cbn [checkpoints prints proc_world].
  change (1 + 1)%N with 2%N.
  destruct (interrupted_at E 1); [reflexivity | ]. cbv beta iota zeta. cbn [orb].
  rewrite in_world_run. unfold add, lift.
  cbn [fst snd checkpoints prints proc_world binary_add as_int].
  rewrite checkpoint_run. cbn [checkpoints prints proc_world].
  change (2 + 1)%N with 3%N.
  destruct (interrupted_at E 2); [reflexivity | ]. cbv beta iota zeta.
  rewrite print_in_run. unfold print, emit.
  cbn [snd checkpoints prints proc_world clock reads iterations trace boot].
  destruct (env_stdout E 0%nat) as [f0 | ]; [reflexivity | ]. cbv beta iota zeta.
  rewrite (ret_in_run VNone). cbv beta iota zeta.
  rewrite checkpoint_run. cbn [checkpoints prints proc_world].
  change (3 + 1)%N with 4%N.
  destruct (interrupted_at E 3); [reflexivity | ]. cbv beta iota zeta. cbn [orb].
  rewrite checkpoint_run. cbn [checkpoints prints proc_world].
  change (4 + 1)%N with 5%N.
  destruct (interrupted_at E 4); [reflexivity | ]. cbv beta iota zeta.
  rewrite in_world_run, time_time_run.
  cbn [fst snd checkpoints prints proc_world clock reads iterations trace].
  destruct (env_clock E 0%nat) as [t0 | ]; [ | reflexivity]. cbv beta iota zeta.
  rewrite for_range_in_pass by lia. cbn [checkpoints prints proc_world].
  change (5 + Z.to_N 10000000)%N with 10000005%N.
  destruct (interrupted_in E 5 10000005); [reflexivity | ]. cbv beta iota zeta. cbn [orb].
  rewrite checkpoint_run. cbn [checkpoints prints proc_world].
  change (10000005 + 1)%N with 10000006%N.
  destruct (interrupted_at E 10000005); [reflexivity | ]. cbv beta iota zeta.
  rewrite in_world_run, time_time_run. unfold add_iterations.
  cbn [fst snd checkpoints prints proc_world clock reads iterations trace].
  destruct (env_clock E 1%nat) as [t1 | ]; [ | reflexivity]. cbv beta iota zeta.
  rewrite checkpoint_run. cbn [checkpoints prints proc_world].
  change (10000006 + 1)%N with 10000007%N.
  destruct (interrupted_at E 10000006); [reflexivity | ]. cbv beta iota zeta.
  rewrite in_world_run. unfold lift.
  cbn [fst snd checkpoints prints proc_world binary_sub as_int float_binop as_float].
  rewrite print_in_run. cbn [checkpoints prints proc_world].
  destruct (env_stdout E 1%nat) as [f1 | ]; [reflexivity | ]. cbv beta iota zeta.
  rewrite print_elapsed. unfold emit, ret_in.
  cbn [snd checkpoints prints proc_world clock reads iterations trace].
  rewrite <- !app_assoc.
  exists t0, t1. split; [reflexivity | split; [reflexivity | ]].
  reflexivity.
Qed.

Lemma first_fault_environmental (E : environment) (e : exn) :
  first_fault E = Some e -> environmental e = true.
Proof.
  unfold first_fault.
  repeat match goal with
    | |- context [if ?b then _ else _] => destruct b
    | |- context [match env_stdout E ?k with _ => _ end] =>
        destruct (env_stdout E k) as [[ | ] | ]
    | |- context [match env_clock E ?k with _ => _ end] => destruct (env_clock E k)
    end;
    intros H; inversion H; reflexivity.
Qed.

Lemma normal_operation_first_fault (E : environment) :
  normal_operation E
  = env_flush E && match first_fault E with None => true | Some _ => false end.
Proof.
  unfold normal_operation, first_fault, run_checkpoints.
  rewrite (interrupted_in_split E 0 3 10000007) by lia.
  rewrite (interrupted_in_split E 3 5 10000007) by lia.
  rewrite (interrupted_in_split E 5 10000006 10000007) by lia.
  destruct (env_clock E 0%nat), (env_clock E 1%nat),
    (env_stdout E 0%nat), (env_stdout E 1%nat),
    (interrupted_in E 0 3), (interrupted_in E 3 5),
    (interrupted_in E 5 10000006), (interrupted_in E 10000006 10000007),
    (env_flush E); reflexivity.
Qed.

(** C6. A run of the program ends normally, with exit status 0, exactly
    under normal operation: the clock answers, standard output takes the
    texts, no interrupt arrives.  It then does what the script does.  It has
    no other way to end than a fault of its environment: where the exit
    status is not 0, either the script was completed and standard output
    could not be flushed, or an exception of the environment (the failure
    of the clock or of a write, an interrupt) went unhandled; no operation
    of the script on its values raises. *)
Theorem exit_paths (E : environment) :
  (fst (run_in E) = 0 <-> normal_operation E = true) /\
  (normal_operation E = true -> run_in E = run (env_clock E)) /\
  (fst (run_in E) <> 0 ->
   (fst (script_in E "__main__" (start E)) = Ok tt /\ env_flush E = false) \/
   (exists e : exn,
      fst (script_in E "__main__" (start E)) = Raise e /\ environmental e = true)).
Proof.
  rewrite normal_operation_first_fault.
  pose proof (script_in_run E) as R.
  pose proof (first_fault_environmental E) as V.
  unfold run_in.
  destruct (first_fault E) as [e | ].
  - specialize (V e eq_refl).
    destruct (script_in E "__main__" (start E)) as [o p]. cbn [fst] in *. subst o.
    rewrite andb_false_r.
    assert (S : exit_status_in E (@Raise unit e) <> 0)
      by (unfold exit_status_in; destruct e, (env_flush E); discriminate).
    repeat split; try discriminate; try (intros H; contradiction).
    intros _. right. now exists e.
  - destruct R as (t0 & t1 & H0 & H1 & R). rewrite R. unfold exit_status_in. cbn [fst].
    rewrite andb_true_r.
    repeat split.
    + now destruct (env_flush E).
    + now intros ->.
    + intros F. rewrite F.
      destruct (run_answered (env_clock E) t0 t1 H0 H1) as [S _].
      unfold run, start. now rewrite S.
    + intros H. left. split; trivial. destruct (env_flush E); trivial. contradiction.
Qed.

End Script.

(** * The script on concrete inputs *)

(** The clock answers 1700000000.25 and then 1700000000.75. *)
Example sample_run :
  run exact_repr quote_repr sample_clock
  = (0, ("The sum is: 7" ++ nl ++ "Python执行时间： 0.5 秒" ++ nl)%string).
Proof.
  unfold run. rewrite script_main_run, simple_run. cbn [snd].
  rewrite performance_run. reflexivity.
Qed.

(** The clock is set back by half a second between the two readings. *)
Example clock_set_back_run :
  run exact_repr quote_repr clock_set_back
  = (0, ("The sum is: 7" ++ nl ++ "Python执行时间： -0.5 秒" ++ nl)%string).
Proof.
  unfold run. rewrite script_main_run, simple_run. cbn [snd].
  rewrite performance_run. reflexivity.
Qed.

(** The clock fails at the second reading. *)
Example failing_clock_run :
  run exact_repr quote_repr failing_clock = (1, ("The sum is: 7" ++ nl)%string).
Proof.
  unfold run. rewrite script_main_run, simple_run. cbn [snd].
  rewrite performance_run. reflexivity.
Qed.

(** The largest integer that rounds to a float, and the next one. *)
Example float_of_int_largest :
  float_of_int (2 ^ 1024 - 2 ^ 970 - 1) = Ok (S754_finite false 9007199254740991 971) /\
  float_of_int (2 ^ 1024 - 2 ^ 970) = Raise OverflowError.
Proof. split; vm_compute; reflexivity. Qed.

Example add_str_int (w : world) :
  add (VStr "a") (VInt 1) w = (Raise TypeError, w).
Proof. reflexivity. Qed.

Lemma performance_timed_loop_witness :
  clock (boot sample_clock) (reads (boot sample_clock)) = Some sample_start /\
  clock (boot sample_clock) (S (reads (boot sample_clock))) = Some sample_end /\
  performance exact_repr quote_repr (boot sample_clock)
  = (Ok VNone,
     mkWorld sample_clock 2 10000000
       [(0%N, EvClock (Some sample_start));
        (10000000%N, EvClock (Some sample_end));
        (10000000%N, EvWrite ("Python执行时间： 0.5 秒" ++ nl))]).
Proof.
  split; [reflexivity | split; [reflexivity | ]].
  exact (proj1 (proj2 (performance_timed_loop exact_repr quote_repr
                         (boot sample_clock) sample_start sample_end
                         eq_refl eq_refl))).
Defined.

Lemma elapsed_nonnegative_witness :
  (clock (boot sample_clock) 0%nat = Some sample_start /\
   clock (boot sample_clock) 1%nat = Some sample_end) /\
  (is_float sample_start = true /\ is_finite sample_start = true) /\
  (is_float sample_end = true /\ is_finite sample_end = true) /\
  float_le sample_start sample_end = true /\
  stdout (snd (performance exact_repr quote_repr (boot sample_clock)))
  = ("Python执行时间： 0.5 秒" ++ nl)%string /\
  float_le float_zero (float_sub sample_end sample_start) = true.
Proof.
  split; [split; reflexivity | ].
  split; [split; reflexivity | ].
  split; [split; reflexivity | ].
  split; [reflexivity | ].
  exact (elapsed_nonnegative exact_repr quote_repr (boot sample_clock)
           sample_start sample_end
           eq_refl eq_refl eq_refl eq_refl eq_refl eq_refl eq_refl).
Defined.

Lemma main_guard_witness :
  (clock (boot sample_clock) 0%nat = Some sample_start /\
   clock (boot sample_clock) 1%nat = Some sample_end) /\
  String.eqb "compare" "__main__" = false /\
  stdout (snd (script exact_repr quote_repr "__main__" (boot sample_clock)))
  = ("The sum is: 7" ++ nl ++ "Python执行时间： 0.5 秒" ++ nl)%string /\
  lines (report exact_repr sample_start sample_end)
  = ["The sum is: 7"; "Python执行时间： 0.5 秒"]%string /\
  script exact_repr quote_repr "compare" (boot sample_clock)
  = (Ok tt, boot sample_clock).
Proof.
  split; [split; reflexivity | ].
  split; [reflexivity | ].
  destruct (main_guard exact_repr quote_repr (boot sample_clock)
              sample_start sample_end "compare" eq_refl eq_refl eq_refl)
    as (_ & Hout & Hlines & _ & Himport).
  split; [exact Hout | split; [exact Hlines | exact Himport]].
Defined.

Lemma add_numeric_witness :
  is_numeric (VInt 3) = true /\ is_numeric (VFloat float_one) = true /\
  snd (add (VInt 3) (VFloat float_one) (boot sample_clock)) = boot sample_clock /\
  fst (add (VInt 3) (VFloat float_one) (boot sample_clock))
  = Ok (VFloat (S754_finite false 4503599627370496 (-50))).
Proof.
  split; [reflexivity | split; [reflexivity | ]].
  exact (add_numeric (VInt 3) (VFloat float_one) (boot sample_clock) eq_refl eq_refl).
Defined.

Lemma runs_same_format_witness :
  clock_answers sample_clock = true /\ clock_answers clock_set_back = true /\
  exists s1 e1 s2 e2 : float,
    run exact_repr quote_repr sample_clock = (0, report exact_repr s1 e1) /\
    run exact_repr quote_repr clock_set_back = (0, report exact_repr s2 e2) /\
    lines (report exact_repr s1 e1)
    = [sum_text; elapsed_text exact_repr (float_sub e1 s1)] /\
    lines (report exact_repr s2 e2)
    = [sum_text; elapsed_text exact_repr (float_sub e2 s2)].
Proof.
  split; [reflexivity | split; [reflexivity | ]].
  exact (runs_same_format exact_repr quote_repr sample_clock clock_set_back
           eq_refl eq_refl).
Defined.

(** [2**1024 + 1.0]: both operands are numbers, and [add] raises. *)
Lemma add_overflow_counterexample :
  is_numeric (VInt (2 ^ 1024)) = true /\
  is_numeric (VFloat float_one) = true /\
  add (VInt (2 ^ 1024)) (VFloat float_one) (boot sample_clock)
  = (Raise OverflowError, boot sample_clock).
Proof. repeat split. Qed.

(** The wall clock is set back by half a second while the loop runs: the
    duration reported is -0.5. *)
Lemma elapsed_negative_counterexample :
  stdout (snd (performance exact_repr quote_repr (boot clock_set_back)))
  = ("Python执行时间： -0.5 秒" ++ nl)%string /\
  float_le float_zero (float_sub sample_start sample_end) = false.
Proof.
  split; [ | reflexivity].
  rewrite performance_run. reflexivity.
Qed.

(** * The further properties on concrete inputs *)

Lemma add_numeric_comm_witness :
  is_numeric (VInt 3) = true /\ is_numeric (VFloat float_one) = true /\
  add (VInt 3) (VFloat float_one) (boot sample_clock)
  = add (VFloat float_one) (VInt 3) (boot sample_clock).
Proof.
  split; [reflexivity | split; [reflexivity | ]].
  exact (add_numeric_comm (VInt 3) (VFloat float_one) (boot sample_clock)
           eq_refl eq_refl).
Defined.

Lemma add_assoc_witness :
  exact_operands (VStr "a") (VStr "b") (VStr "c") = true /\
  (x <- add (VStr "a") (VStr "b") ;; add x (VStr "c")) (boot sample_clock)
  = (y <- add (VStr "b") (VStr "c") ;; add (VStr "a") y) (boot sample_clock).
Proof.
  split; [reflexivity | ].
  exact (add_assoc (VStr "a") (VStr "b") (VStr "c") (boot sample_clock) eq_refl).
Defined.

Lemma run_output_on_failure_witness :
  clock_answers failing_clock = false /\
  run exact_repr quote_repr failing_clock = (1, ("The sum is: 7" ++ nl)%string).
Proof.
  split; [reflexivity | ].
  exact (run_output_on_failure exact_repr quote_repr failing_clock eq_refl).
Defined.

Lemma elapsed_zero_witness :
  (clock (boot stalled_clock) 0%nat = Some sample_start /\
   clock (boot stalled_clock) 1%nat = Some sample_start) /\
  is_finite sample_start = true /\
  float_sub sample_start sample_start = float_zero /\
  stdout (snd (performance exact_repr quote_repr (boot stalled_clock)))
  = ("Python执行时间： 0.0 秒" ++ nl)%string.
Proof.
  split; [split; reflexivity | ].
  split; [reflexivity | ].
  exact (elapsed_zero exact_repr quote_repr (boot stalled_clock) sample_start
           eq_refl eq_refl eq_refl).
Defined.

Lemma elapsed_not_nan_witness :
  (clock (boot clock_set_back) 0%nat = Some sample_end /\
   clock (boot clock_set_back) 1%nat = Some sample_start) /\
  (is_finite sample_end = true /\ is_finite sample_start = true) /\
  stdout (snd (performance exact_repr quote_repr (boot clock_set_back)))
  = ("Python执行时间： -0.5 秒" ++ nl)%string /\
  is_nan (float_sub sample_start sample_end) = false.
Proof.
  split; [split; reflexivity | ].
  split; [split; reflexivity | ].
  exact (elapsed_not_nan exact_repr quote_repr (boot clock_set_back)
           sample_end sample_start eq_refl eq_refl eq_refl eq_refl).
Defined.

Lemma elapsed_exact_witness :
  (is_float sample_start = true /\ is_float sample_end = true) /\
  (0 < ticks sample_start /\
   ticks sample_start <= ticks sample_end /\
   ticks sample_end <= 2 * ticks sample_start) /\
  stdout (snd (performance exact_repr quote_repr (boot sample_clock)))
  = ("Python执行时间： 0.5 秒" ++ nl)%string /\
  ticks (float_sub sample_end sample_start) = ticks sample_end - ticks sample_start /\
  is_finite (float_sub sample_end sample_start) = true.
Proof.
  assert (P : 0 < ticks sample_start) by reflexivity.
  assert (L : ticks sample_start <= ticks sample_end)
    by (apply Z.leb_le; reflexivity).
  assert (U : ticks sample_end <= 2 * ticks sample_start)
    by (apply Z.leb_le; reflexivity).
  split; [split; reflexivity | ].
  split; [split; [exact P | split; [exact L | exact U]] | ].
  exact (elapsed_exact exact_repr quote_repr (boot sample_clock)
           sample_start sample_end eq_refl eq_refl eq_refl eq_refl P L U).
Defined.

Lemma elapsed_positive_witness :
  (is_float sample_start = true /\ is_finite sample_start = true) /\
  (is_float sample_end = true /\ is_finite sample_end = true) /\
  float_lt sample_start sample_end = true /\
  stdout (snd (performance exact_repr quote_repr (boot sample_clock)))
  = ("Python执行时间： 0.5 秒" ++ nl)%string /\
  float_lt float_zero (float_sub sample_end sample_start) = true.
Proof.
  split; [split; reflexivity | ].
  split; [split; reflexivity | ].
  split; [reflexivity | ].
  exact (elapsed_positive exact_repr quote_repr (boot sample_clock)
           sample_start sample_end
           eq_refl eq_refl eq_refl eq_refl eq_refl eq_refl eq_refl).
Defined.

Lemma add_int_float_returns_witness :
  Z.abs (2 ^ 1000) < 2 ^ 1023 /\
  exists f : float,
    is_finite f = true /\
    add (VInt (2 ^ 1000)) (VFloat float_one) (boot sample_clock)
    = (Ok (VFloat (float_add f float_one)), boot sample_clock) /\
    add (VFloat float_one) (VInt (2 ^ 1000)) (boot sample_clock)
    = (Ok (VFloat (float_add float_one f)), boot sample_clock).
Proof.
  assert (H : Z.abs (2 ^ 1000) < 2 ^ 1023) by reflexivity.
  split; [exact H | ].
  exact (add_int_float_returns (2 ^ 1000) float_one (boot sample_clock) H).
Defined.

Lemma add_int_float_exact_witness :
  Z.abs 3 < 2 ^ 53 /\
  exists f : float,
    ticks f = 3 * 2 ^ 1074 /\ is_float f = true /\
    add (VInt 3) (VFloat float_one) (boot sample_clock)
    = (Ok (VFloat (float_add f float_one)), boot sample_clock) /\
    add (VFloat float_one) (VInt 3) (boot sample_clock)
    = (Ok (VFloat (float_add float_one f)), boot sample_clock).
Proof.
  assert (H : Z.abs 3 < 2 ^ 53) by reflexivity.
  split; [exact H | ].
  exact (add_int_float_exact 3 float_one (boot sample_clock) H).
Defined.

(** * Runs in an environment *)

(** Nothing fails: the run is the run under normal operation. *)
Example run_in_sample_environment :
  run_in exact_repr quote_repr sample_environment
  = (0, ("The sum is: 7" ++ nl ++ "Python执行时间： 0.5 秒" ++ nl)%string).
Proof.
  pose proof (script_in_run exact_repr quote_repr sample_environment) as R.
  change (first_fault sample_environment) with (@None exn) in R.
  destruct R as (t0 & t1 & H0 & H1 & R).
  inversion H0; subst t0. inversion H1; subst t1.
  unfold run_in. rewrite R. reflexivity.
Qed.

(** Standard output cannot encode the label of the second line: the first
    line is written, the second [print] raises, the exit status is 1. *)
Example run_in_ascii_stdout :
  fst (script_in exact_repr quote_repr ascii_stdout "__main__" (start ascii_stdout))
  = Raise UnicodeEncodeError /\
  fst (run_in exact_repr quote_repr ascii_stdout) = 1.
Proof.
  pose proof (script_in_run exact_repr quote_repr ascii_stdout) as R.
  change (first_fault ascii_stdout) with (Some UnicodeEncodeError) in R.
  unfold run_in.
  destruct (script_in exact_repr quote_repr ascii_stdout "__main__" (start ascii_stdout))
    as [o p].
  cbn [fst] in *. subst o. now split.
Qed.

(** The script is completed and the flush at exit fails: exit status 120. *)
Example run_in_closed_pipe :
  fst (script_in exact_repr quote_repr closed_pipe "__main__" (start closed_pipe))
  = Ok tt /\
  fst (run_in exact_repr quote_repr closed_pipe) = 120.
Proof.
  pose proof (script_in_run exact_repr quote_repr closed_pipe) as R.
  change (first_fault closed_pipe) with (@None exn) in R.
  destruct R as (t0 & t1 & H0 & H1 & R).
  unfold run_in. rewrite R. now split.
Qed.

(** An interrupt arrives during the loop: [KeyboardInterrupt] is not
    handled. *)
Example run_in_interrupted_loop :
  fst (script_in exact_repr quote_repr interrupted_loop "__main__"
         (start interrupted_loop))
  = Raise KeyboardInterrupt /\
  fst (run_in exact_repr quote_repr interrupted_loop) = 130.
Proof.
  pose proof (script_in_run exact_repr quote_repr interrupted_loop) as R.
  change (first_fault interrupted_loop) with (Some KeyboardInterrupt) in R.
  unfold run_in.
  destruct (script_in exact_repr quote_repr interrupted_loop "__main__"
              (start interrupted_loop)) as [o p].
  cbn [fst] in *. subst o. now split.
Qed.
